(** * The okteto sample greeter and the snapshot-command validation script

    A shallow embedding of [validate_snapshot_command.py] and of
    [samples/python-getting-started/app.py].

    Python strings are sequences of Unicode code points: a character is a
    code point in [N] and a string a list of them.  The script talks to the
    outside through [os.path.exists], [open(...).read()] and [print]; the
    filesystem is a function from paths to nodes and does not change during
    a run, the content of a file is the text [read()] returns, standard
    output is the list of the strings handed to [print] (each followed by a
    newline, in an encoding that has every character of the messages), and
    an uncaught exception ends the run. *)

From Stdlib Require Import List NArith Arith Bool Ascii String Lia.
From Stdlib Require Import DecimalString DecimalNat Permutation.
Import ListNotations.

Set Implicit Arguments.

(** ** Text *)

Module Text.

Definition char := N.
Definition text := list char.

(** An (ASCII) literal of the source as a sequence of code points. *)
Definition str (s : string) : text := map N_of_ascii (list_ascii_of_string s).

Definition newline : char := 10%N.
Definition space : char := 32%N.

(** U+2713 CHECK MARK, U+2717 BALLOT X and U+26A0 WARNING SIGN, which the
    script's messages are marked with. *)
Definition check_mark : char := 10003%N.
Definition ballot_x : char := 10007%N.
Definition warning_sign : char := 9888%N.

(** [a == b] on strings. *)
Fixpoint text_eqb (a b : text) : bool :=
  match a, b with
  | [], [] => true
  | x :: a', y :: b' => N.eqb x y && text_eqb a' b'
  | _, _ => false
  end.

(** [s.count(c)] for a one-character [c]. *)
Fixpoint count (c : char) (s : text) : nat :=
  match s with
  | [] => 0
  | x :: s' => (if N.eqb x c then 1 else 0) + count c s'
  end.

(** [s.startswith(p)] *)
Fixpoint startswith (p s : text) : bool :=
  match p, s with
  | [], _ => true
  | _ :: _, [] => false
  | a :: p', b :: s' => N.eqb a b && startswith p' s'
  end.

(** [s.endswith(p)] *)
Definition endswith (s p : text) : bool := startswith (rev p) (rev s).

(** [p in s] for strings: [p] occurs in [s] as a contiguous run. *)
Fixpoint contains (p s : text) : bool :=
  startswith p s ||
  match s with
  | [] => false
  | _ :: s' => contains p s'
  end.

(** What an f-string puts for an [int] that is not negative: its decimal
    digits. *)
Definition format_int (n : nat) : text :=
  str (NilZero.string_of_uint (Nat.to_uint n)).

Definition lbrace : char := 123%N.
Definition rbrace : char := 125%N.
Definition lparen : char := 40%N.
Definition rparen : char := 41%N.
Definition underscore : char := 95%N.

Definition is_digit (c : char) : bool := (N.leb 48 c && N.leb c 57)%N.

End Text.

Import Text.

(** ** The regular expression of the package check

    [re.search(r'^package\s+\w+', content, re.MULTILINE)].  The pattern is a
    sequence of atoms: the anchor [^], literal characters, and a character
    class under [+].  The classes [\s] and [\w] of a [str] pattern are
    decided by the Unicode database of the Python runtime
    ([str.isspace], and [str.isalnum] or an underscore); the database is not
    part of this repository and is a parameter of the development. *)

Section Regex.

Variable uni_isspace : char -> bool.
Variable uni_isalnum : char -> bool.

Inductive category := Space | Word.

Inductive atom :=
| Bol                       (* ^ under re.MULTILINE *)
| Chr (c : char)            (* a literal character *)
| Plus (k : category).      (* \s+ or \w+ *)

Definition in_category (k : category) (c : char) : bool :=
  match k with
  | Space => uni_isspace c
  | Word => uni_isalnum c || N.eqb c underscore
  end.

(** Under [re.MULTILINE], [^] matches at the start of the string and just
    after each newline; [prev] is the character before the position. *)
Definition at_line_start (prev : option char) : bool :=
  match prev with
  | None => true
  | Some c => N.eqb c newline
  end.

(** [match_at pat prev s]: the pattern matches some prefix of [s], where
    [prev] is the character before [s] in the whole string.  A class under
    [+] takes one character or more; every split is tried, as the
    backtracking matcher does. *)
Fixpoint match_at (pat : list atom) (prev : option char) (s : text) : bool :=
  match pat with
  | [] => true
  | Bol :: pat' => at_line_start prev && match_at pat' prev s
  | Chr c :: pat' =>
      match s with
      | x :: s' => N.eqb x c && match_at pat' (Some x) s'
      | [] => false
      end
  | Plus k :: pat' =>
      (fix more (s : text) : bool :=
         match s with
         | x :: s' => in_category k x && (match_at pat' (Some x) s' || more s')
         | [] => false
         end) s
  end.

(** [re.search]: a match at some position of the string, the end included;
    the result is the truth value of the match object. *)
Fixpoint search_from (pat : list atom) (prev : option char) (s : text) : bool :=
  match_at pat prev s ||
  match s with
  | [] => false
  | x :: s' => search_from pat (Some x) s'
  end.

Definition re_search (pat : list atom) (s : text) : bool :=
  search_from pat None s.

(** [r'^package\s+\w+'] *)
Definition package_re : list atom :=
  Bol :: map Chr (str "package") ++ [Plus Space; Plus Word].

(** ** check_go_syntax, after the file is read *)

Definition brace_issue (o c : nat) : text :=
  str "Unmatched braces: " ++ format_int o ++ str " open, "
    ++ format_int c ++ str " close".

Definition paren_issue (o c : nat) : text :=
  str "Unmatched parentheses: " ++ format_int o ++ str " open, "
    ++ format_int c ++ str " close".

Definition package_issue : text := str "Missing package declaration".

(** [issues.append(x)] *)
Definition append (issues : list text) (x : text) : list text := issues ++ [x].

(** The body of [check_go_syntax] below the [with] block: [issues] starts
    empty and each of the three [if] statements may append to it. *)
Definition check_go_syntax_content (content : text) : list text :=
  let issues := [] in
  let open_braces := count lbrace content in
  let close_braces := count rbrace content in
  let issues :=
    if negb (Nat.eqb open_braces close_braces)
    then append issues (brace_issue open_braces close_braces)
    else issues in
  let open_parens := count lparen content in
  let close_parens := count rparen content in
  let issues :=
    if negb (Nat.eqb open_parens close_parens)
    then append issues (paren_issue open_parens close_parens)
    else issues in
  let issues :=
    if negb (re_search package_re content)
    then append issues package_issue
    else issues in
  issues.

End Regex.

(** ** The world of the script: filesystem, standard output, exceptions *)

Module World.

(** What [open(path, 'r')] followed by [read()] can raise. *)
Inductive exception :=
| OSError              (* FileNotFoundError, PermissionError, IsADirectoryError *)
| UnicodeDecodeError.

Inductive outcome (A : Type) :=
| Ok (a : A)
| Raise (e : exception).

Arguments Ok {A} a.
Arguments Raise {A} e.

(** A path names nothing, or something which [open] and [read] either turn
    into text or fail on. *)
Inductive node :=
| Absent
| Present (r : outcome text).

Definition filesystem := text -> node.

(** [os.path.exists(path)] *)
Definition os_path_exists (fs : filesystem) (path : text) : bool :=
  match fs path with
  | Absent => false
  | Present _ => true
  end.

(** [with open(path, 'r') as f: ... f.read()] *)
Definition open_read (fs : filesystem) (path : text) : outcome text :=
  match fs path with
  | Absent => Raise OSError
  | Present r => r
  end.

(** A computation of the script: it extends what was printed so far, and
    returns a value or raises. *)
Definition IO (A : Type) := list text -> list text * outcome A.

Definition ret {A} (a : A) : IO A := fun out => (out, Ok a).

Definition bind {A B} (m : IO A) (k : A -> IO B) : IO B :=
  fun out =>
    match m out with
    | (out', Ok a) => k a out'
    | (out', Raise e) => (out', Raise e)
    end.

(** [print(s)] *)
Definition print (s : text) : IO unit := fun out => (out ++ [s], Ok tt).

Definition lift {A} (r : outcome A) : IO A := fun out => (out, r).

(** [for x in xs: body] *)
Fixpoint for_each {A} (xs : list A) (body : A -> IO unit) : IO unit :=
  match xs with
  | [] => ret tt
  | x :: xs' => bind (body x) (fun _ => for_each xs' body)
  end.

End World.

Import World.

Declare Scope io_scope.
Delimit Scope io_scope with io.
Notation "x <- m ;; k" := (bind m (fun x => k))
  (at level 61, m at next level, right associativity) : io_scope.
Notation "m ;; k" := (bind m (fun _ => k))
  (at level 61, right associativity) : io_scope.
Open Scope io_scope.

(** ** The validation script *)

Section Script.

Variable uni_isspace : char -> bool.
Variable uni_isalnum : char -> bool.
Variable fs : filesystem.

Definition check_file_exists (filepath : text) : IO bool :=
  ret (os_path_exists fs filepath).

Definition check_go_syntax (filepath : text) : IO (list text) :=
  content <- lift (open_read fs filepath) ;;
  ret (check_go_syntax_content uni_isspace uni_isalnum content).

Definition files_to_check : list text :=
  [ str "/workspace/cmd/snapshot/snapshot.go";
    str "/workspace/cmd/snapshot/upload.go";
    str "/workspace/cmd/snapshot/upload_test.go";
    str "/workspace/cmd/snapshot/README.md" ].

Definition main_go_path : text := str "/workspace/main.go".

Definition exists_line (filepath : text) : text :=
  check_mark :: str " " ++ filepath ++ str " exists".

Definition missing_line (filepath : text) : text :=
  ballot_x :: str " " ++ filepath ++ str " missing".

Definition issues_header : text :=
  str "  " ++ warning_sign :: str " Syntax issues found:".

Definition issue_line (issue : text) : text := str "    - " ++ issue.

Definition syntax_passed : text :=
  str "  " ++ check_mark :: str " Basic syntax validation passed".

Definition import_added : text :=
  check_mark :: str " Snapshot import added to main.go".
Definition import_missing : text :=
  ballot_x :: str " Snapshot import missing from main.go".
Definition command_added : text :=
  check_mark :: str " Snapshot command added to root command".
Definition command_missing : text :=
  ballot_x :: str " Snapshot command not added to root command".

(** The body of the [for filepath in files_to_check] loop. *)
Definition check_one (filepath : text) : IO unit :=
  present <- check_file_exists filepath ;;
  if present then
    print (exists_line filepath) ;;
    if endswith filepath (str ".go") then
      issues <- check_go_syntax filepath ;;
      match issues with
      | _ :: _ =>
          print issues_header ;;
          for_each issues (fun issue => print (issue_line issue))
      | [] => print syntax_passed
      end
    else ret tt
  else print (missing_line filepath).

(** The [main.go] integration check. *)
Definition check_main_go : IO unit :=
  present <- check_file_exists main_go_path ;;
  if present then
    main_content <- lift (open_read fs main_go_path) ;;
    (if contains (str "github.com/okteto/okteto/cmd/snapshot") main_content
     then print import_added
     else print import_missing) ;;
    (if contains (str "snapshot.Snapshot(") main_content
     then print command_added
     else print command_missing)
  else ret tt.

Definition validate_snapshot_command : IO unit :=
  print (str "Validating Okteto Snapshot Command Implementation...") ;;
  print (repeat 61%N 50) ;;
  for_each files_to_check check_one ;;
  check_main_go ;;
  print (newline :: str "Validation Summary:") ;;
  print (str "- Command structure: " ++ check_mark :: str " Created") ;;
  print (str "- Upload subcommand: " ++ check_mark :: str " Implemented") ;;
  print (str "- Progress tracking: " ++ check_mark :: str " Using pb/v3") ;;
  print (str "- Kubernetes integration: " ++ check_mark
           :: str " Using existing patterns") ;;
  print (str "- Volume snapshots: " ++ check_mark
           :: str " Using snapshot.storage.k8s.io/v1") ;;
  print (str "- CLI integration: " ++ check_mark :: str " Added to main.go") ;;
  print (newline :: str "Features implemented:") ;;
  print (str "1. " ++ check_mark :: str " Directory size calculation") ;;
  print (str "2. " ++ check_mark :: str " PVC creation with size override") ;;
  print (str "3. " ++ check_mark :: str " Temporary pod creation") ;;
  print (str "4. " ++ check_mark :: str " kubectl cp with progress tracking") ;;
  print (str "5. " ++ check_mark :: str " VolumeSnapshot creation") ;;
  print (str "6. " ++ check_mark :: str " Snapshot readiness monitoring") ;;
  print (str "7. " ++ check_mark :: str " Resource cleanup") ;;
  print (str "8. " ++ check_mark :: str " Custom snapshot naming").

(** [if __name__ == "__main__": validate_snapshot_command()].  The run starts
    with nothing printed; the interpreter exits with status 0 when the call
    returns and with status 1 on an uncaught exception. *)
Definition main : list text * nat :=
  match validate_snapshot_command [] with
  | (out, Ok _) => (out, 0)
  | (out, Raise _) => (out, 1)
  end.

End Script.

(** ** The greeter *)

Module Greeter.

Inductive http_method := GET | HEAD | POST | PUT | DELETE | OPTIONS | PATCH.

Record request := {
  req_method : http_method;
  req_path : text;
  req_query : list (text * text);
  req_headers : list (text * text)
}.

Record response := {
  status : nat;
  body : text
}.

(** [hello_world] takes no argument; [ctx] is the request Flask has bound
    while the view runs, which the body never reads. *)
Definition hello_world (ctx : request) : text :=
  let msg := str "Hello World!" in
  msg.

(** Flask turns a [str] returned by a view into a response of status 200
    with that text as body. *)
Definition make_response (rv : text) : response :=
  {| status := 200; body := rv |}.

(** [@app.route('/')]: the view answers GET on the root path.  [None] stands
    for the requests the framework answers without this view's result
    (another path, another method), which are not modelled. *)
Definition dispatch (req : request) : option response :=
  match req_method req with
  | GET =>
      if text_eqb (req_path req) (str "/")
      then Some (make_response (hello_world req))
      else None
  | _ => None
  end.

End Greeter.

(** ** The Unicode database on ASCII

    The values of [str.isspace] and [str.isalnum] on the code points below
    128, and [false] above: enough to run the checker on ASCII files. *)

Definition ascii_isspace (c : char) : bool :=
  ((N.leb 9 c && N.leb c 13) || (N.leb 28 c && N.leb c 32))%N.

Definition ascii_isalnum (c : char) : bool :=
  ((N.leb 48 c && N.leb c 57) || (N.leb 65 c && N.leb c 90)
   || (N.leb 97 c && N.leb c 122))%N.

(** A filesystem with one readable file. *)
Definition single_file (path content : text) : filesystem :=
  fun p => if text_eqb p path then Present (Ok content) else Absent.

(** The filesystem with no file at all. *)
Definition empty_fs : filesystem := fun _ => Absent.

(** ** The words of the specification *)

Section SpecWords.

Variable uni_isspace : char -> bool.
Variable uni_isalnum : char -> bool.

(** The lines of a text: [content.split('\n')]. *)
Fixpoint split_lines (s : text) : list text :=
  match s with
  | [] => [[]]
  | c :: s' =>
      if N.eqb c newline then [] :: split_lines s'
      else match split_lines s' with
           | l :: ls => (c :: l) :: ls
           | [] => [[c]]
           end
  end.

(** A non-empty run of characters of one class. *)
Definition run_of (k : category) (w : text) : Prop :=
  w <> [] /\ Forall (fun c => in_category uni_isspace uni_isalnum k c = true) w.

(** "A line starting with [package <identifier>]": the token, whitespace,
    then an identifier, which is a run of word characters. *)
Definition package_line (l : text) : Prop :=
  exists ws id rest,
    l = str "package" ++ ws ++ id ++ rest /\ run_of Space ws /\ run_of Word id.

Definition has_package_line (content : text) : Prop :=
  exists l, In l (split_lines content) /\ package_line l.

(** The issue of each check, or nothing when the check passes. *)
Definition brace_check (content : text) : list text :=
  if Nat.eqb (count lbrace content) (count rbrace content) then []
  else [brace_issue (count lbrace content) (count rbrace content)].

Definition paren_check (content : text) : list text :=
  if Nat.eqb (count lparen content) (count rparen content) then []
  else [paren_issue (count lparen content) (count rparen content)].

Definition package_check (content : text) : list text :=
  if re_search uni_isspace uni_isalnum package_re content then []
  else [package_issue].

(** An issue string of the brace check. *)
Definition is_brace_issue (issue : text) : bool :=
  startswith (str "Unmatched braces: ") issue.

Definition is_paren_issue (issue : text) : bool :=
  startswith (str "Unmatched parentheses: ") issue.

End SpecWords.

(** The two closing blocks, as the specification quotes them. *)
Definition validation_summary : list text :=
  [ newline :: str "Validation Summary:";
    str "- Command structure: " ++ check_mark :: str " Created";
    str "- Upload subcommand: " ++ check_mark :: str " Implemented";
    str "- Progress tracking: " ++ check_mark :: str " Using pb/v3";
    str "- Kubernetes integration: " ++ check_mark :: str " Using existing patterns";
    str "- Volume snapshots: " ++ check_mark :: str " Using snapshot.storage.k8s.io/v1";
    str "- CLI integration: " ++ check_mark :: str " Added to main.go" ].

Definition features_implemented : list text :=
  [ newline :: str "Features implemented:";
    str "1. " ++ check_mark :: str " Directory size calculation";
    str "2. " ++ check_mark :: str " PVC creation with size override";
    str "3. " ++ check_mark :: str " Temporary pod creation";
    str "4. " ++ check_mark :: str " kubectl cp with progress tracking";
    str "5. " ++ check_mark :: str " VolumeSnapshot creation";
    str "6. " ++ check_mark :: str " Snapshot readiness monitoring";
    str "7. " ++ check_mark :: str " Resource cleanup";
    str "8. " ++ check_mark :: str " Custom snapshot naming" ].

Definition closing_blocks : list text := validation_summary ++ features_implemented.

(** The last strings printed, as many as the closing blocks have. *)
Definition final_blocks (out : list text) : list text :=
  skipn (List.length out - List.length closing_blocks) out.

(** How many times a line was printed. *)
Definition occurrences (l : text) (out : list text) : nat :=
  List.length (filter (text_eqb l) out).

(** The files the script opens: the Go files of the list and [main.go]. *)
Definition checked_files : list text := files_to_check ++ [main_go_path].

(** Every checked file that exists can be read. *)
Definition all_readable (fs : filesystem) : Prop :=
  forall p e, In p checked_files -> fs p <> Present (Raise e).

(** What the loop prints for one file when reading it does not fail. *)
Definition report_one (uni_isspace uni_isalnum : char -> bool)
    (fs : filesystem) (p : text) : list text :=
  match fs p with
  | Absent => [missing_line p]
  | Present r =>
      exists_line p ::
      (if endswith p (str ".go") then
         match r with
         | Ok content =>
             match check_go_syntax_content uni_isspace uni_isalnum content with
             | [] => [syntax_passed]
             | issues => issues_header :: map issue_line issues
             end
         | Raise _ => []
         end
       else [])
  end.

(** What the [main.go] check prints when the file can be read. *)
Definition report_main (fs : filesystem) : list text :=
  match fs main_go_path with
  | Present (Ok main_content) =>
      [ if contains (str "github.com/okteto/okteto/cmd/snapshot") main_content
        then import_added else import_missing;
        if contains (str "snapshot.Snapshot(") main_content
        then command_added else command_missing ]
  | _ => []
  end.

Definition banner : list text :=
  [ str "Validating Okteto Snapshot Command Implementation...";
    repeat 61%N 50 ].

(** ** Auxiliary definitions of the proofs *)

(** The character before the position reached after [pre]. *)
Definition char_before (prev : option char) (pre : text) : option char :=
  fold_left (fun _ c => Some c) pre prev.

(** A Go file of the list that exists can be read. *)
Definition go_readable (fs : filesystem) (p : text) : Prop :=
  forall e, endswith p (str ".go") = true -> fs p <> Present (Raise e).

(** The lines of the loop about the file [p]: its two status lines, and
    indented lines. *)
Definition line_about (p l : text) : Prop :=
  l = missing_line p \/ l = exists_line p \/ hd_error l = Some space.

Definition loop_line (ps : list text) (l : text) : Prop :=
  exists p, In p ps /\ line_about p l.

(** The lines printed outside the loop. *)
Definition fixed_lines : list text :=
  banner ++ [import_added; import_missing; command_added; command_missing]
    ++ closing_blocks.

(** The lines about [main.go], and one that the script has no statement
    for. *)
Definition about_main : list text :=
  [ import_added; import_missing; command_added; command_missing;
    exists_line main_go_path; missing_line main_go_path ].

(** A line is clear of the loop and of the fixed text: it is none of their
    lines and is not indented. *)
Definition clear_of_rest (l : text) : bool :=
  forallb (fun x => negb (text_eqb x l))
    (banner ++ closing_blocks ++ map missing_line files_to_check
       ++ map exists_line files_to_check)
  && negb (match l with c :: _ => N.eqb c space | [] => false end).

(** Sample inputs. *)

Definition snapshot_go : text := str "/workspace/cmd/snapshot/snapshot.go".
Definition upload_go : text := str "/workspace/cmd/snapshot/upload.go".

(** [upload.go] is there and cannot be read; nothing else exists. *)
Definition unreadable_upload : filesystem :=
  fun p => if text_eqb p upload_go then Present (Raise OSError) else Absent.

Definition root_get : Greeter.request :=
  {| Greeter.req_method := Greeter.GET;
     Greeter.req_path := str "/";
     Greeter.req_query := [(str "name", str "x")];
     Greeter.req_headers := [(str "Accept", str "*/*")] |}.

Definition sample_go : text :=
  str "package main" ++ newline :: str "func f() { if true { } }".

(** ** Beneath the filesystem: what [os.path.exists] asks

    [os.path.exists] is the standard library's [genericpath.exists]
    (Python 3.8 and later):
    [try: os.stat(path)], [except (OSError, ValueError): return False],
    [return True].  [os.stat] follows symbolic links; it raises
    [FileNotFoundError] where no entry is or where a link leads nowhere,
    [PermissionError] where a directory on the way may not be searched, and
    [ValueError] on a path that holds a null character.  The filesystem of
    the script is the disk as [os.stat] shows it. *)

Module Disk.

Inductive stat_exception :=
| FileNotFoundError
| PermissionError
| ValueError.

Inductive exception_class := OSErrorClass | ValueErrorClass.

(** [FileNotFoundError] and [PermissionError] are subclasses of [OSError]. *)
Definition class_of (e : stat_exception) : exception_class :=
  match e with
  | FileNotFoundError | PermissionError => OSErrorClass
  | ValueError => ValueErrorClass
  end.

Definition class_eqb (a b : exception_class) : bool :=
  match a, b with
  | OSErrorClass, OSErrorClass | ValueErrorClass, ValueErrorClass => true
  | _, _ => false
  end.

Inductive result (A : Type) :=
| Returns (a : A)
| Raises (e : stat_exception).

Arguments Returns {A} a.
Arguments Raises {A} e.

(** What is at a path. *)
Inductive entry :=
| NoEntry                        (* no directory entry of that name *)
| DanglingLink                   (* a symbolic link whose target is missing *)
| Hidden                         (* an entry under a directory that may not
                                    be searched *)
| Reachable (r : outcome text).  (* an entry [os.stat] reaches; [r] is what
                                    opening and reading it gives *)

Definition disk := text -> entry.

(** The path names a directory entry. *)
Definition on_disk (d : disk) (path : text) : bool :=
  match d path with
  | NoEntry => false
  | _ => true
  end.

Definition has_null (path : text) : bool := existsb (N.eqb 0) path.

(** [os.stat(path)] *)
Definition os_stat (d : disk) (path : text) : result unit :=
  if has_null path then Raises ValueError
  else match d path with
       | NoEntry | DanglingLink => Raises FileNotFoundError
       | Hidden => Raises PermissionError
       | Reachable _ => Returns tt
       end.

(** [try: body] [except caught: handler] *)
Definition try_except {A} (body : result A) (caught : list exception_class)
    (handler : result A) : result A :=
  match body with
  | Returns a => Returns a
  | Raises e =>
      if existsb (class_eqb (class_of e)) caught then handler else Raises e
  end.

(** [genericpath.exists(path)] *)
Definition genericpath_exists (d : disk) (path : text) : result bool :=
  try_except
    (match os_stat d path with
     | Returns _ => Returns true
     | Raises e => Raises e
     end)
    [OSErrorClass; ValueErrorClass]
    (Returns false).

(** The disk as the script sees it: the nodes [os.stat] reaches. *)
Definition view (d : disk) : filesystem :=
  fun path =>
    match os_stat d path with
    | Returns _ =>
        match d path with
        | Reachable r => Present r
        | _ => Absent
        end
    | Raises _ => Absent
    end.

End Disk.

(** ** Reading a mismatch message

    The two counts of a message are decimal numerals.  A numeral is read
    from the left, digit by digit; it is canonical when it has no leading
    zero, the numeral [0] apart. *)

Fixpoint digits_value_from (acc : nat) (s : text) : option nat :=
  match s with
  | [] => Some acc
  | c :: s' =>
      if is_digit c then digits_value_from (10 * acc + N.to_nat (c - 48)) s'
      else None
  end.

Definition digits_value (s : text) : option nat :=
  match s with
  | [] => None
  | _ :: _ => digits_value_from 0 s
  end.

Definition canonical_numeral (s : text) : bool :=
  match s with
  | [] => false
  | c :: rest =>
      negb (N.eqb c 48) || match rest with [] => true | _ :: _ => false end
  end.

(** [s] is the decimal numeral of [n]. *)
Definition decimal_of (n : nat) (s : text) : Prop :=
  digits_value s = Some n /\ canonical_numeral s = true.

(** ** Further notions for the properties of the code *)

(** [p] occurs in [s] as a contiguous run. *)
Definition occurs_in (p s : text) : Prop := exists a b, s = a ++ p ++ b.

(** A package declaration as the pattern sees it: [package] at the start of
    the text or just after a newline, then a run of whitespace, then a run
    of word characters. *)
Definition package_declared (uni_isspace uni_isalnum : char -> bool)
    (content : text) : Prop :=
  exists pre ws w rest,
    content = pre ++ str "package" ++ ws ++ w ++ rest
    /\ (pre = [] \/ exists pre', pre = pre' ++ [newline])
    /\ run_of uni_isspace uni_isalnum Space ws
    /\ run_of uni_isspace uni_isalnum Word w.

(** No read of the run fails: the Go files of the list and [main.go]. *)
Definition reads_succeed (fs : filesystem) : Prop :=
  (forall p, In p files_to_check -> go_readable fs p)
  /\ (forall e, fs main_go_path <> Present (Raise e)).

(** A line that is neither indented nor a status line of the loop. *)
Definition plain_line (l : text) : bool :=
  match l with
  | c :: _ => negb (N.eqb c space) && negb (N.eqb c check_mark)
              && negb (N.eqb c ballot_x)
  | [] => true
  end.

Definition import_needle : text := str "github.com/okteto/okteto/cmd/snapshot".
Definition command_needle : text := str "snapshot.Snapshot(".

Definition readme_md : text := str "/workspace/cmd/snapshot/README.md".

(** Filesystems with one node that cannot be read. *)
Definition unreadable_readme : filesystem :=
  fun p => if text_eqb p readme_md then Present (Raise OSError) else Absent.

(** A disk where [snapshot.go] is a symbolic link that leads nowhere. *)
Definition dangling_disk : Disk.disk :=
  fun p => if text_eqb p (str "/workspace/cmd/snapshot/snapshot.go")
           then Disk.DanglingLink else Disk.NoEntry.

Definition unreadable_main : filesystem :=
  fun p => if text_eqb p main_go_path then Present (Raise OSError) else Absent.

(** A [main.go] with the import and without the command. *)
Definition half_wired_main : text :=
  str "import github.com/okteto/okteto/cmd/snapshot" ++ newline :: str "func main() {}".

(** ** Running the code on the scenarios of the specification *)

Example scenario_balanced :
  check_go_syntax_content ascii_isspace ascii_isalnum
    (str "package main" ++ newline :: str "func f() { if true { } }") = [].
Proof. reflexivity. Qed.

Example scenario_open_brace :
  check_go_syntax_content ascii_isspace ascii_isalnum (str "func f() {")
  = [str "Unmatched braces: 1 open, 0 close"; str "Missing package declaration"].
Proof. reflexivity. Qed.

Example scenario_all_three :
  check_go_syntax_content ascii_isspace ascii_isalnum (str "){{")
  = [str "Unmatched braces: 2 open, 0 close";
     str "Unmatched parentheses: 0 open, 1 close";
     str "Missing package declaration"].
Proof. reflexivity. Qed.

Example scenario_nothing_there :
  main ascii_isspace ascii_isalnum empty_fs
  = (banner ++ map missing_line files_to_check ++ closing_blocks, 0).
Proof. reflexivity. Qed.

(** ** Properties of the regular expression *)

Section RegexFacts.

Variable uni_isspace : char -> bool.
Variable uni_isalnum : char -> bool.

Local Abbreviation match_at := (match_at uni_isspace uni_isalnum).
Local Abbreviation search_from := (search_from uni_isspace uni_isalnum).
Local Abbreviation re_search := (re_search uni_isspace uni_isalnum).
Local Abbreviation in_category := (in_category uni_isspace uni_isalnum).
Local Abbreviation run_of := (run_of uni_isspace uni_isalnum).

Lemma match_plus_cons k pat prev x s :
  match_at (Plus k :: pat) prev (x :: s)
  = in_category k x && (match_at pat (Some x) s || match_at (Plus k :: pat) (Some x) s).
Proof. reflexivity. Qed.

Lemma match_plus_nil k pat prev : match_at (Plus k :: pat) prev [] = false.
Proof. reflexivity. Qed.

Lemma match_one_run k w tail prev :
  run_of k w -> match_at [Plus k] prev (w ++ tail) = true.
Proof.
  intros [Hne Hall]. destruct w as [|c w]; [congruence|].
  inversion Hall as [|? ? Hc _]; subst.
  rewrite <- app_comm_cons, match_plus_cons, Hc. reflexivity.
Qed.

Lemma match_two_runs k1 k2 w1 w2 tail :
  run_of k1 w1 -> run_of k2 w2 ->
  forall prev, match_at [Plus k1; Plus k2] prev (w1 ++ w2 ++ tail) = true.
Proof.
  intros [Hne Hall] H2. induction w1 as [|c w1 IH]; [congruence|].
  intros prev. inversion Hall as [|? ? Hc Hrest]; subst.
  rewrite <- app_comm_cons, match_plus_cons, Hc. cbn [andb].
  destruct w1 as [|d w1].
  - cbn [app]. rewrite (match_one_run tail (Some c) H2). reflexivity.
  - rewrite IH by (auto; discriminate). apply orb_true_r.
Qed.

Lemma match_literal lit pat s :
  (forall prev, match_at pat prev s = true) ->
  forall prev, match_at (map Chr lit ++ pat) prev (lit ++ s) = true.
Proof.
  intros Hpat. induction lit as [|c lit IH]; intros prev; simpl.
  - apply Hpat.
  - rewrite N.eqb_refl. apply IH.
Qed.

Lemma match_package_line ws id tail prev :
  at_line_start prev = true -> run_of Space ws -> run_of Word id ->
  match_at package_re prev (str "package" ++ ws ++ id ++ tail) = true.
Proof.
  intros Hbol Hws Hid. unfold package_re.
  change (match_at (Bol :: ?p) prev ?s) with (at_line_start prev && match_at p prev s).
  rewrite Hbol. cbn [andb].
  apply match_literal. intros p. now apply match_two_runs.
Qed.

Lemma search_from_here pat prev s :
  match_at pat prev s = true -> search_from pat prev s = true.
Proof. intros H. destruct s; simpl; rewrite H; reflexivity. Qed.

Lemma search_from_app pat pre s :
  forall prev,
  match_at pat (char_before prev pre) s = true ->
  search_from pat prev (pre ++ s) = true.
Proof.
  induction pre as [|x pre IH]; intros prev H.
  - now apply search_from_here.
  - simpl. rewrite (IH (Some x)) by exact H. apply orb_true_r.
Qed.

Lemma char_before_newline prev pre :
  char_before prev (pre ++ [newline]) = Some newline.
Proof. unfold char_before. now rewrite fold_left_app. Qed.

(** Where the lines of a text lie in it: the first one at its start, every
    other one just after a newline. *)
Lemma split_lines_places s :
  exists l0 ls,
    split_lines s = l0 :: ls /\
    (exists post, s = l0 ++ post) /\
    (forall l, In l ls -> exists pre post, s = (pre ++ [newline]) ++ l ++ post).
Proof.
  induction s as [|c s (l0 & ls & Heq & (post0 & H0) & Hls)].
  - exists [], []. repeat split; [now exists []|intros l []].
  - simpl. destruct (N.eqb_spec c newline) as [->|Hc].
    + exists [], (split_lines s). repeat split; [now exists (newline :: s)|].
      intros l Hl. rewrite Heq in Hl. destruct Hl as [<-|Hl].
      * exists [], post0. simpl. now rewrite H0 at 1.
      * destruct (Hls l Hl) as (pre & post & Hs).
        exists (newline :: pre), post. simpl. now rewrite Hs at 1.
    + rewrite Heq. exists (c :: l0), ls. repeat split.
      * exists post0. simpl. now rewrite H0 at 1.
      * intros l Hl. destruct (Hls l Hl) as (pre & post & Hs).
        exists (c :: pre), post. simpl. now rewrite Hs at 1.
Qed.

Lemma package_line_found content :
  has_package_line uni_isspace uni_isalnum content ->
  re_search package_re content = true.
Proof.
  intros (l & Hin & ws & id & rest & -> & Hws & Hid).
  destruct (split_lines_places content) as (l0 & ls & Heq & (post0 & H0) & Hls).
  rewrite Heq in Hin. unfold re_search. destruct Hin as [Hl0|Hin].
  - subst l0. rewrite H0, <- !app_assoc.
    apply search_from_here. now apply match_package_line.
  - destruct (Hls _ Hin) as (pre & post & ->).
    apply search_from_app. rewrite char_before_newline.
    rewrite <- !app_assoc. now apply match_package_line.
Qed.

(** No match can start in a text shorter than the literal part of the
    pattern needs. *)
Lemma package_needs_literal prev s :
  match_at package_re prev s = true -> startswith (str "package") s = true.
Proof.
  unfold package_re.
  change (match_at (Bol :: ?p) prev ?s) with (at_line_start prev && match_at p prev s).
  intros H. apply andb_true_iff in H. destruct H as [_ H].
  repeat (destruct s as [|? s]; [discriminate H|];
          simpl in H; apply andb_true_iff in H; destruct H as [Hc H];
          apply N.eqb_eq in Hc; subst).
  reflexivity.
Qed.

End RegexFacts.

(** ** Decimal rendering *)

Lemma str_cons (a : ascii) (s : string) : str (String a s) = N_of_ascii a :: str s.
Proof. reflexivity. Qed.

(** Reading the digits of a numeral from the left gives the number the
    numeral stands for. *)
Lemma digits_value_of_uint (d : Decimal.uint) :
  forall acc,
  digits_value_from acc (str (NilEmpty.string_of_uint d))
  = Some (Nat.of_uint_acc d acc).
Proof.
  induction d; intros acc; simpl NilEmpty.string_of_uint;
    [reflexivity | rewrite str_cons; cbn [digits_value_from] ..];
    match goal with
    | |- context [is_digit ?c] => change (is_digit c) with true
    end; cbv iota; rewrite IHd; simpl Nat.of_uint_acc;
    rewrite Nat.tail_mul_spec; do 2 f_equal; lia.
Qed.

Lemma format_int_value (n : nat) : digits_value (format_int n) = Some n.
Proof.
  unfold format_int, NilZero.string_of_uint.
  pose proof (DecimalNat.Unsigned.of_to n) as Hn. unfold Nat.of_uint in Hn.
  destruct (Nat.to_uint n) as [|d|d|d|d|d|d|d|d|d|d] eqn:E;
    [simpl in Hn; subst n; reflexivity | ..];
    rewrite <- Hn;
    match goal with
    | |- digits_value (str (NilEmpty.string_of_uint ?u)) = _ =>
        rewrite <- (digits_value_of_uint u 0)
    end; reflexivity.
Qed.

Lemma nzhead_no_zero (d : Decimal.uint) :
  match Decimal.nzhead d with
  | Decimal.D0 _ => False
  | _ => True
  end.
Proof. induction d; simpl; auto. Qed.

Lemma canonical_of_uint (d : Decimal.uint) :
  canonical_numeral (str (NilZero.string_of_uint (Decimal.unorm d))) = true.
Proof.
  unfold Decimal.unorm. pose proof (nzhead_no_zero d) as H.
  destruct (Decimal.nzhead d); try reflexivity. destruct H.
Qed.

Lemma format_int_canonical (n : nat) : canonical_numeral (format_int n) = true.
Proof.
  unfold format_int.
  rewrite <- (DecimalNat.Unsigned.of_to n) at 1.
  rewrite DecimalNat.Unsigned.to_of. apply canonical_of_uint.
Qed.

Lemma format_int_decimal (n : nat) : decimal_of n (format_int n).
Proof. split; [apply format_int_value|apply format_int_canonical]. Qed.

Lemma startswith_app (p s : text) : startswith p (p ++ s) = true.
Proof. induction p as [|a p IH]; simpl; [|rewrite N.eqb_refl]; auto. Qed.

Lemma brace_issue_recognised o c : is_brace_issue (brace_issue o c) = true.
Proof. apply startswith_app. Qed.

Lemma paren_issue_not_brace o c : is_brace_issue (paren_issue o c) = false.
Proof. reflexivity. Qed.

Lemma package_issue_not_brace : is_brace_issue package_issue = false.
Proof. reflexivity. Qed.

(** ** check_go_syntax *)

Section CheckSyntax.

Variable uni_isspace : char -> bool.
Variable uni_isalnum : char -> bool.

Local Abbreviation check_syntax := (check_go_syntax uni_isspace uni_isalnum).
Local Abbreviation content_issues :=
  (check_go_syntax_content uni_isspace uni_isalnum).
Local Abbreviation pkg_check := (package_check uni_isspace uni_isalnum).

Lemma check_go_syntax_reads fs path content out :
  fs path = Present (Ok content) ->
  check_syntax fs path out = (out, Ok (content_issues content)).
Proof.
  intros H. unfold check_go_syntax, bind, lift, open_read.
  now rewrite H.
Qed.

Lemma check_go_syntax_fails fs path e out :
  fs path = Present (Raise e) ->
  check_syntax fs path out = (out, Raise e).
Proof.
  intros H. unfold check_go_syntax, bind, lift, open_read.
  now rewrite H.
Qed.

Lemma content_checks content :
  content_issues content
  = brace_check content ++ paren_check content ++ pkg_check content.
Proof.
  unfold check_go_syntax_content, brace_check, paren_check, package_check, append.
  destruct (Nat.eqb (count lbrace content) (count rbrace content));
    destruct (Nat.eqb (count lparen content) (count rparen content));
    destruct (re_search uni_isspace uni_isalnum package_re content);
    reflexivity.
Qed.

(** C5: on every content, [check_go_syntax] returns the issue of the brace
    check, then that of the parenthesis check, then that of the package
    check, each present exactly when its own check fails, whatever the other
    two checks find; a check contributes one issue at most. *)
Theorem check_go_syntax_three_checks fs path content out :
  fs path = Present (Ok content) ->
  check_syntax fs path out
  = (out, Ok (brace_check content ++ paren_check content ++ pkg_check content))
  /\ List.length (brace_check content) <= 1
  /\ List.length (paren_check content) <= 1
  /\ List.length (pkg_check content) <= 1.
Proof.
  intros H. split.
  - rewrite (check_go_syntax_reads _ _ out H). now rewrite content_checks.
  - unfold brace_check, paren_check, package_check.
    repeat split;
      match goal with |- context [if ?b then _ else _] => destruct b end;
      simpl; lia.
Qed.

(** C4: on the content [func f() {] the issues are the brace mismatch with
    counts 1 and 0, then the missing package declaration, and nothing about
    parentheses. *)
Theorem check_go_syntax_open_brace fs path out :
  fs path = Present (Ok (str "func f() {")) ->
  check_syntax fs path out
  = (out, Ok [str "Unmatched braces: 1 open, 0 close";
              str "Missing package declaration"]).
Proof.
  intros H. rewrite (check_go_syntax_reads _ _ out H). reflexivity.
Qed.

(** C2: balanced braces, balanced parentheses and a line that starts with
    [package], whitespace and an identifier give no issue. *)
Theorem check_go_syntax_clean fs path content out :
  fs path = Present (Ok content) ->
  count lbrace content = count rbrace content ->
  count lparen content = count rparen content ->
  has_package_line uni_isspace uni_isalnum content ->
  check_syntax fs path out = (out, Ok []).
Proof.
  intros H Hb Hp Hpkg.
  rewrite (check_go_syntax_reads _ _ out H), content_checks.
  unfold brace_check, paren_check, package_check.
  rewrite Hb, Hp, !Nat.eqb_refl, (package_line_found Hpkg). reflexivity.
Qed.

(** C3: when the braces do not balance, exactly one of the returned issues
    is a brace mismatch: it reads [Unmatched braces: ], a numeral, [ open, ],
    a numeral, [ close], where the first numeral is the decimal numeral of
    the number of opening braces of the content and the second that of the
    number of closing braces. *)
Theorem check_go_syntax_brace_counts fs path content out :
  fs path = Present (Ok content) ->
  count lbrace content <> count rbrace content ->
  exists issues o c,
    check_syntax fs path out = (out, Ok issues)
    /\ filter is_brace_issue issues
       = [str "Unmatched braces: " ++ o ++ str " open, " ++ c ++ str " close"]
    /\ decimal_of (count lbrace content) o
    /\ decimal_of (count rbrace content) c.
Proof.
  intros H Hne.
  exists (content_issues content),
         (format_int (count lbrace content)),
         (format_int (count rbrace content)).
  split; [now apply check_go_syntax_reads|].
  split; [|split; apply format_int_decimal].
  rewrite content_checks.
  assert (Hb : brace_check content
               = [brace_issue (count lbrace content) (count rbrace content)]).
  { unfold brace_check. apply Nat.eqb_neq in Hne. now rewrite Hne. }
  assert (Hrest : filter is_brace_issue (paren_check content ++ pkg_check content)
                  = []).
  { unfold paren_check, package_check.
    destruct (Nat.eqb (count lparen content) (count rparen content));
      destruct (re_search uni_isspace uni_isalnum package_re content);
      cbn [app filter];
      rewrite ?paren_issue_not_brace, ?package_issue_not_brace; reflexivity. }
  rewrite Hb. cbn [app filter]. rewrite brace_issue_recognised, Hrest.
  reflexivity.
Qed.

End CheckSyntax.

(** ** Strings and printed lines *)

Lemma text_eqb_spec (a b : text) : reflect (a = b) (text_eqb a b).
Proof.
  revert b. induction a as [|x a IH]; intros [|y b]; simpl;
    try (constructor; congruence).
  destruct (N.eqb_spec x y) as [->|Hxy]; simpl.
  - destruct (IH b) as [->|Hab]; constructor; congruence.
  - constructor. congruence.
Qed.

Lemma text_eqb_refl (a : text) : text_eqb a a = true.
Proof. now destruct (text_eqb_spec a a). Qed.

Lemma text_eqb_neq (a b : text) : text_eqb a b = false -> a <> b.
Proof. intros H. now destruct (text_eqb_spec a b). Qed.

Lemma occurrences_app l out1 out2 :
  occurrences l (out1 ++ out2) = occurrences l out1 + occurrences l out2.
Proof. unfold occurrences. now rewrite filter_app, length_app. Qed.

Lemma occurrences_none l out :
  (forall x, In x out -> x <> l) -> occurrences l out = 0.
Proof.
  unfold occurrences. induction out as [|x out IH]; intros H; [reflexivity|].
  cbn [filter]. destruct (text_eqb_spec l x) as [->|_].
  - exfalso. apply (H x); [now left|reflexivity].
  - apply IH. intros y Hy. apply H. now right.
Qed.

(** A line is not among concrete lines when it differs from each. *)
Lemma not_among (l : text) (out : list text) :
  forallb (fun x => negb (text_eqb x l)) out = true ->
  forall x, In x out -> x <> l.
Proof.
  intros H x Hx. rewrite forallb_forall in H. specialize (H x Hx).
  apply text_eqb_neq. now destruct (text_eqb x l).
Qed.

Lemma final_blocks_app (pre : list text) :
  final_blocks (pre ++ closing_blocks) = closing_blocks.
Proof.
  unfold final_blocks. rewrite length_app, Nat.add_sub.
  rewrite skipn_app, skipn_all, Nat.sub_diag. reflexivity.
Qed.

Lemma missing_line_inj p q : missing_line p = missing_line q -> p = q.
Proof.
  unfold missing_line. intros H. injection H as H.
  now apply app_inv_tail in H.
Qed.

(** ** The run of the script *)

Section Run.

Variable uni_isspace : char -> bool.
Variable uni_isalnum : char -> bool.
Variable fs : filesystem.

Local Abbreviation check_one_file := (check_one uni_isspace uni_isalnum fs).
Local Abbreviation report := (report_one uni_isspace uni_isalnum fs).
Local Abbreviation validate := (validate_snapshot_command uni_isspace uni_isalnum fs).

Ltac run := cbv beta iota delta [bind print ret lift].

Lemma for_each_print_map {A} (f : A -> text) xs out :
  for_each xs (fun x => print (f x)) out = (out ++ map f xs, Ok tt).
Proof.
  revert out. induction xs as [|x xs IH]; intros out; simpl.
  - unfold ret. now rewrite app_nil_r.
  - unfold bind at 1. unfold print at 1. rewrite IH, <- app_assoc. reflexivity.
Qed.

Lemma check_one_ok p out :
  go_readable fs p -> check_one_file p out = (out ++ report p, Ok tt).
Proof.
  intros Hr. unfold check_one, report_one, check_file_exists, check_go_syntax,
    os_path_exists, open_read, go_readable in *.
  run. destruct (fs p) as [|r]; [reflexivity|].
  destruct (endswith p (str ".go")).
  - destruct r as [content|e]; [|now destruct (Hr e eq_refl)].
    destruct (check_go_syntax_content _ _ content) as [|i issues].
    + now rewrite <- app_assoc.
    + change (fun (issue : text) (out0 : list text) =>
                (out0 ++ [issue_line issue], Ok tt))
        with (fun issue => print (issue_line issue)).
      rewrite for_each_print_map, <- !app_assoc. reflexivity.
  - reflexivity.
Qed.

Lemma check_one_raise p e out :
  endswith p (str ".go") = true -> fs p = Present (Raise e) ->
  check_one_file p out = (out ++ [exists_line p], Raise e).
Proof.
  intros Hgo Hp. unfold check_one, check_file_exists, check_go_syntax,
    os_path_exists, open_read.
  run. now rewrite Hp, Hgo.
Qed.

Lemma loop_ok ps out :
  (forall p, In p ps -> go_readable fs p) ->
  for_each ps check_one_file out = (out ++ flat_map report ps, Ok tt).
Proof.
  revert out. induction ps as [|p ps IH]; intros out H; simpl.
  - unfold ret. now rewrite app_nil_r.
  - run. rewrite check_one_ok by (apply H; now left).
    rewrite IH by (intros q Hq; apply H; now right).
    now rewrite <- app_assoc.
Qed.

Lemma loop_raise before p after e out :
  (forall q, In q before -> go_readable fs q) ->
  endswith p (str ".go") = true -> fs p = Present (Raise e) ->
  for_each (before ++ p :: after) check_one_file out
  = (out ++ flat_map report before ++ [exists_line p], Raise e).
Proof.
  revert out. induction before as [|q before IH]; intros out H Hgo Hp; simpl.
  - run. now rewrite (check_one_raise _ Hgo Hp).
  - run. rewrite check_one_ok by (apply H; now left).
    rewrite IH by (auto; intros r Hr; apply H; now right).
    now rewrite <- !app_assoc.
Qed.

Lemma check_main_ok out :
  (forall e, fs main_go_path <> Present (Raise e)) ->
  check_main_go fs out = (out ++ report_main fs, Ok tt).
Proof.
  intros Hr. unfold check_main_go, report_main, check_file_exists,
    os_path_exists, open_read.
  run. destruct (fs main_go_path) as [|[content|e]].
  - now rewrite app_nil_r.
  - destruct (contains _ content), (contains _ content);
      now rewrite <- app_assoc.
  - now destruct (Hr e).
Qed.

Lemma check_main_absent out :
  fs main_go_path = Absent -> check_main_go fs out = (out, Ok tt).
Proof.
  intros H. unfold check_main_go, check_file_exists, os_path_exists.
  run. now rewrite H.
Qed.

Lemma all_readable_go p :
  all_readable fs -> In p files_to_check -> go_readable fs p.
Proof.
  intros H Hp e _. apply H. unfold checked_files. apply in_or_app. now left.
Qed.

Lemma all_readable_main e : all_readable fs -> fs main_go_path <> Present (Raise e).
Proof.
  intros H. apply H. unfold checked_files. apply in_or_app. right. now left.
Qed.

(** The whole output of a run in which no read fails. *)
Lemma validate_ok out :
  all_readable fs ->
  validate out
  = (out ++ banner ++ flat_map report files_to_check ++ report_main fs
         ++ closing_blocks, Ok tt).
Proof.
  intros H. unfold validate_snapshot_command. run.
  rewrite loop_ok by (intros p Hp; now apply all_readable_go).
  rewrite check_main_ok by (intros e; now apply all_readable_main).
  repeat rewrite <- app_assoc. reflexivity.
Qed.

(** The output of a run in which reading a Go file of the list fails. *)
Lemma validate_raise before p after e out :
  files_to_check = before ++ p :: after ->
  (forall q, In q before -> go_readable fs q) ->
  endswith p (str ".go") = true -> fs p = Present (Raise e) ->
  validate out
  = (out ++ banner ++ flat_map report before ++ [exists_line p], Raise e).
Proof.
  intros Hsplit H Hgo Hp. unfold validate_snapshot_command. run.
  rewrite Hsplit, (@loop_raise before p after e _ H Hgo Hp).
  repeat rewrite <- app_assoc. reflexivity.
Qed.

End Run.

(** ** What the loop prints, line by line *)

Section Lines.

Variable uni_isspace : char -> bool.
Variable uni_isalnum : char -> bool.
Variable fs : filesystem.

Local Abbreviation check_one_file := (check_one uni_isspace uni_isalnum fs).
Local Abbreviation report := (report_one uni_isspace uni_isalnum fs).
Local Abbreviation validate := (validate_snapshot_command uni_isspace uni_isalnum fs).

Lemma report_lines p l : In l (report p) -> line_about p l.
Proof.
  unfold report_one, line_about. destruct (fs p) as [|r].
  - intros [<-|[]]. now left.
  - intros [<-|H]; [now right; left|]. right; right.
    destruct (endswith p (str ".go")); [|destruct H].
    destruct r as [content|e]; [|destruct H].
    destruct (check_go_syntax_content _ _ content) as [|i issues].
    + destruct H as [<-|[]]. reflexivity.
    + destruct H as [<-|H]; [reflexivity|].
      apply in_map_iff in H. destruct H as (j & <- & _). reflexivity.
Qed.

Lemma check_one_lines p out :
  exists ls r,
    check_one_file p out = (out ++ ls, r) /\ forall l, In l ls -> line_about p l.
Proof.
  destruct (endswith p (str ".go")) eqn:Hgo.
  - destruct (fs p) as [|[content|e]] eqn:Hp.
    + exists (report p), (Ok tt). split; [|apply report_lines].
      apply check_one_ok. intros e _. congruence.
    + exists (report p), (Ok tt). split; [|apply report_lines].
      apply check_one_ok. intros e _. congruence.
    + exists [exists_line p], (Raise e). split; [now apply check_one_raise|].
      intros l [<-|[]]. right. now left.
  - exists (report p), (Ok tt). split; [|apply report_lines].
    apply check_one_ok. intros e He. congruence.
Qed.

Lemma loop_lines ps out :
  exists ls r,
    for_each ps check_one_file out = (out ++ ls, r)
    /\ forall l, In l ls -> loop_line ps l.
Proof.
  revert out. induction ps as [|p ps IH]; intros out.
  - exists [], (Ok tt). split; [simpl; unfold ret; now rewrite app_nil_r|].
    intros l [].
  - destruct (check_one_lines p out) as (ls1 & r1 & H1 & Hl1).
    simpl. unfold bind at 1. rewrite H1. destruct r1 as [[]|e].
    + destruct (IH (out ++ ls1)) as (ls2 & r2 & H2 & Hl2).
      exists (ls1 ++ ls2), r2. split; [now rewrite H2, <- app_assoc|].
      intros l Hl. apply in_app_or in Hl. destruct Hl as [Hl|Hl].
      * exists p. split; [now left|now apply Hl1].
      * destruct (Hl2 l Hl) as (q & Hq & Hql). exists q. split; [now right|easy].
    + exists ls1, (Raise e). split; [reflexivity|].
      intros l Hl. exists p. split; [now left|now apply Hl1].
Qed.

(** A run in which [main.go] is absent, whatever else happens. *)
Lemma validate_without_main out :
  fs main_go_path = Absent ->
  exists ls tail r,
    validate out = (out ++ banner ++ ls ++ tail, r)
    /\ (forall l, In l ls -> loop_line files_to_check l)
    /\ (tail = [] \/ tail = closing_blocks).
Proof.
  intros Hmain. unfold validate_snapshot_command.
  cbv beta iota delta [bind print].
  match goal with
  | |- context [for_each files_to_check _ ?o] =>
      destruct (loop_lines files_to_check o) as (ls & r & Hloop & Hls)
  end.
  destruct r as [[]|e].
  - exists ls, closing_blocks, (Ok tt).
    split; [|split; [exact Hls|now right]].
    rewrite Hloop, check_main_absent by exact Hmain.
    repeat rewrite <- app_assoc. reflexivity.
  - exists ls, [], (Raise e). split; [|split; [exact Hls|now left]].
    rewrite Hloop, app_nil_r. repeat rewrite <- app_assoc. reflexivity.
Qed.

Lemma occurrences_report_self p :
  fs p = Absent -> occurrences (missing_line p) (report p) = 1.
Proof.
  intros H. unfold report_one, occurrences. rewrite H. cbn [filter].
  now rewrite text_eqb_refl.
Qed.

Lemma occurrences_report_other p q :
  p <> q -> occurrences (missing_line p) (report q) = 0.
Proof.
  intros Hpq. apply occurrences_none. intros x Hx Heq. subst x.
  destruct (report_lines _ _ Hx) as [H|[H|H]].
  - apply Hpq. now apply missing_line_inj.
  - discriminate H.
  - discriminate H.
Qed.

Lemma occurrences_loop_absent p ps :
  ~ In p ps -> occurrences (missing_line p) (flat_map report ps) = 0.
Proof.
  induction ps as [|q ps IH]; intros H; [reflexivity|].
  cbn [flat_map]. rewrite occurrences_app, occurrences_report_other, IH; auto.
  - intros Hp. apply H. now right.
  - intros ->. apply H. now left.
Qed.

Lemma occurrences_loop p ps :
  NoDup ps -> In p ps -> fs p = Absent ->
  occurrences (missing_line p) (flat_map report ps) = 1.
Proof.
  intros Hnd. induction Hnd as [|q ps Hq Hnd IH]; intros Hin Hp; [destruct Hin|].
  cbn [flat_map]. rewrite occurrences_app. destruct Hin as [->|Hin].
  - now rewrite occurrences_report_self, occurrences_loop_absent.
  - rewrite occurrences_report_other, IH; auto. intros ->. contradiction.
Qed.

Lemma report_main_lines x :
  In x (report_main fs) ->
  In x [import_added; import_missing; command_added; command_missing].
Proof.
  unfold report_main. destruct (fs main_go_path) as [|[content|e]]; try easy.
  destruct (contains _ content), (contains _ content);
    intros [<-|[<-|[]]]; simpl; tauto.
Qed.

End Lines.

Lemma files_distinct : NoDup files_to_check.
Proof.
  unfold files_to_check.
  repeat constructor; simpl; intros H;
    repeat (destruct H as [H|H]; [revert H; apply text_eqb_neq; reflexivity|]);
    exact H.
Qed.

Lemma fixed_lines_not_missing p x :
  In p files_to_check -> In x fixed_lines -> x <> missing_line p.
Proof.
  intros Hp. revert x. apply not_among.
  repeat (destruct Hp as [<-|Hp]; [vm_compute; reflexivity|]). destruct Hp.
Qed.

Lemma about_main_clear : forallb clear_of_rest about_main = true.
Proof. vm_compute. reflexivity. Qed.

Lemma clear_not_printed l ls tail :
  clear_of_rest l = true ->
  (forall x, In x ls -> loop_line files_to_check x) ->
  tail = [] \/ tail = closing_blocks ->
  ~ In l (banner ++ ls ++ tail).
Proof.
  intros Hc Hls Htail Hin. unfold clear_of_rest in Hc.
  apply andb_true_iff in Hc. destruct Hc as [Hc Hhd].
  pose proof (@not_among _ _ Hc) as Hne.
  assert (Hfix : forall x, In x (banner ++ closing_blocks) -> x <> l).
  { intros x Hx. apply Hne. rewrite app_assoc. apply in_or_app. now left. }
  apply in_app_or in Hin. destruct Hin as [Hin|Hin].
  { apply (Hfix l); [apply in_or_app; now left|reflexivity]. }
  apply in_app_or in Hin. destruct Hin as [Hin|Hin].
  - destruct (Hls l Hin) as (p & Hp & [H|[H|H]]).
    + apply (Hne (missing_line p)); [|now symmetry].
      apply in_or_app; right. apply in_or_app; right. apply in_or_app; left.
      now apply in_map.
    + apply (Hne (exists_line p)); [|now symmetry].
      apply in_or_app; right. apply in_or_app; right. apply in_or_app; right.
      now apply in_map.
    + destruct l as [|c l]; [discriminate H|]. injection H as ->.
      discriminate Hhd.
  - destruct Htail as [->| ->]; [destruct Hin|].
    apply (Hfix l); [apply in_or_app; now right|reflexivity].
Qed.

Lemma exists_line_inj p q : exists_line p = exists_line q -> p = q.
Proof.
  unfold exists_line. intros H. injection H as H.
  now apply app_inv_tail in H.
Qed.

Lemma banner_not_status p x :
  In p files_to_check -> In x banner ->
  x <> exists_line p /\ x <> missing_line p.
Proof.
  intros Hp Hx. split; revert x Hx; apply not_among;
    repeat (destruct Hp as [<-|Hp]; [vm_compute; reflexivity|]); destruct Hp.
Qed.

Lemma NoDup_app_disjoint {A} (l l' : list A) a :
  NoDup (l ++ l') -> In a l -> In a l' -> False.
Proof.
  induction l as [|b l IH]; intros Hnd Hl Hl'; [destruct Hl|].
  inversion Hnd as [|? ? Hb Hnd']; subst. destruct Hl as [->|Hl].
  - apply Hb. apply in_or_app. now right.
  - now apply IH.
Qed.

(** ** The claims about the run *)

Section Claims.

Variable uni_isspace : char -> bool.
Variable uni_isalnum : char -> bool.

Local Abbreviation report := (report_one uni_isspace uni_isalnum).
Local Abbreviation validate := (validate_snapshot_command uni_isspace uni_isalnum).
Local Abbreviation run_main := (main uni_isspace uni_isalnum).

Lemma main_ok fs :
  all_readable fs ->
  run_main fs
  = (banner ++ flat_map (report fs) files_to_check ++ report_main fs
       ++ closing_blocks, 0).
Proof.
  intros H. unfold main. now rewrite validate_ok.
Qed.

(** C1: in any two filesystems whose existing checked files can be read, the
    run ends with the same text: the validation summary followed by the
    list of features, whatever exists and whatever the checks find. *)
Theorem closing_blocks_constant fs1 fs2 :
  all_readable fs1 -> all_readable fs2 ->
  final_blocks (fst (run_main fs1)) = closing_blocks
  /\ final_blocks (fst (run_main fs2)) = closing_blocks
  /\ final_blocks (fst (run_main fs1)) = final_blocks (fst (run_main fs2)).
Proof.
  intros H1 H2.
  assert (Hall : forall fs, all_readable fs ->
                            final_blocks (fst (run_main fs)) = closing_blocks).
  { intros fs H. rewrite (main_ok H). cbn [fst].
    rewrite !app_assoc. apply final_blocks_app. }
  repeat split; rewrite ?Hall; auto.
Qed.

(** C7: when every existing checked file can be read, the call returns, the
    exit status is 0, and each file of the list that is missing has its
    warning line printed exactly once; the contents of the files play no
    part. *)
Theorem run_exits_zero fs :
  all_readable fs ->
  exists out,
    validate fs [] = (out, Ok tt)
    /\ run_main fs = (out, 0)
    /\ forall p, In p files_to_check -> fs p = Absent ->
         occurrences (missing_line p) out = 1.
Proof.
  intros H. eexists. split; [now apply validate_ok|].
  split; [now apply main_ok|].
  intros p Hp Hfs. cbn [app]. rewrite !occurrences_app.
  rewrite (@occurrences_loop uni_isspace uni_isalnum fs p files_to_check
             files_distinct Hp Hfs).
  assert (Hfixed : forall part, incl part fixed_lines ->
                                occurrences (missing_line p) part = 0).
  { intros part Hpart. apply occurrences_none. intros x Hx.
    apply fixed_lines_not_missing; [exact Hp|now apply Hpart]. }
  rewrite (Hfixed banner), (Hfixed (report_main fs)), (Hfixed closing_blocks);
    [reflexivity| | |]; unfold fixed_lines; intros x Hx.
  - apply in_or_app. right. apply in_or_app. now right.
  - apply in_or_app. right. apply in_or_app. left.
    now apply report_main_lines in Hx.
  - apply in_or_app. now left.
Qed.

(** C8: when a Go file of the list exists and reading it fails,
    [check_go_syntax] raises the error instead of returning issues, the run
    stops right after that file's existence line with the error uncaught
    (exit status 1), and nothing is printed about the files that follow. *)
Theorem unreadable_go_file_aborts fs before p after e :
  files_to_check = before ++ p :: after ->
  endswith p (str ".go") = true ->
  fs p = Present (Raise e) ->
  (forall q, In q before -> go_readable fs q) ->
  (forall out, check_go_syntax uni_isspace uni_isalnum fs p out = (out, Raise e))
  /\ validate fs []
     = (banner ++ flat_map (report fs) before ++ [exists_line p], Raise e)
  /\ run_main fs = (banner ++ flat_map (report fs) before ++ [exists_line p], 1)
  /\ forall q, In q after ->
       ~ In (exists_line q) (fst (run_main fs))
       /\ ~ In (missing_line q) (fst (run_main fs)).
Proof.
  intros Hsplit Hgo Hp Hbefore.
  pose proof (@validate_raise uni_isspace uni_isalnum fs before p after e []
                Hsplit Hbefore Hgo Hp) as Hrun.
  cbn [app] in Hrun.
  assert (Hmain : run_main fs
                  = (banner ++ flat_map (report fs) before ++ [exists_line p], 1)).
  { unfold main. now rewrite Hrun. }
  split; [intros out; now apply check_go_syntax_fails|].
  split; [exact Hrun|]. split; [exact Hmain|].
  intros q Hq. rewrite Hmain. cbn [fst].
  pose proof files_distinct as Hnd. rewrite Hsplit in Hnd.
  assert (Hqf : In q files_to_check).
  { rewrite Hsplit. apply in_or_app. right. now right. }
  assert (Hqp : p <> q).
  { intros ->. apply NoDup_remove_2 in Hnd. apply Hnd.
    apply in_or_app. now right. }
  assert (Hqb : forall q', In q' before -> q' <> q).
  { intros q' Hq' ->. apply (@NoDup_app_disjoint _ _ _ q Hnd Hq'). now right. }
  split; intros Hin; apply in_app_or in Hin;
    (destruct Hin as [Hin|Hin];
     [destruct (banner_not_status Hqf Hin) as [Hx Hm]; congruence|]);
    apply in_app_or in Hin; destruct Hin as [Hin|Hin].
  - apply in_flat_map in Hin. destruct Hin as (q' & Hq' & Hin).
    destruct (@report_lines uni_isspace uni_isalnum fs q' _ Hin) as [H|[H|H]]; try discriminate H.
    apply exists_line_inj in H. now apply (Hqb q').
  - destruct Hin as [H|[]]. apply exists_line_inj in H. contradiction.
  - apply in_flat_map in Hin. destruct Hin as (q' & Hq' & Hin).
    destruct (@report_lines uni_isspace uni_isalnum fs q' _ Hin) as [H|[H|H]]; try discriminate H.
    apply missing_line_inj in H. now apply (Hqb q').
  - destruct Hin as [H|[]]. discriminate H.
Qed.

(** C10: when [main.go] is absent the run prints none of the four lines of
    the integration check and no status line for that path; the loop, for
    its part, prints the warning line of every absent file it comes to, so
    that (no read failing) each absent file of the list has its warning in
    the output. *)
Theorem main_go_absent_silent fs :
  fs main_go_path = Absent ->
  (forall l, In l about_main -> ~ In l (fst (run_main fs)))
  /\ (forall p out, In p files_to_check -> fs p = Absent ->
        check_one uni_isspace uni_isalnum fs p out
        = (out ++ [missing_line p], Ok tt))
  /\ (all_readable fs ->
      forall p, In p files_to_check -> fs p = Absent ->
        In (missing_line p) (fst (run_main fs))).
Proof.
  intros Hmain. split; [|split].
  - intros l Hl.
    destruct (@validate_without_main uni_isspace uni_isalnum fs [] Hmain)
      as (ls & tail & r & Hrun & Hls & Htail).
    unfold main. rewrite Hrun. cbn [app].
    assert (Hc : clear_of_rest l = true).
    { pose proof about_main_clear as H. rewrite forallb_forall in H. now apply H. }
    destruct r; cbn [fst]; now apply clear_not_printed.
  - intros p out _ Hfs.
    unfold check_one, check_file_exists, os_path_exists.
    cbv beta iota delta [bind ret]. now rewrite Hfs.
  - intros Hr p Hp Hfs. rewrite (main_ok Hr). cbn [fst].
    apply in_or_app. right. apply in_or_app. left.
    apply in_flat_map. exists p. split; [exact Hp|].
    unfold report_one. rewrite Hfs. now left.
Qed.

End Claims.

(** ** The greeter's claim *)

(** C9: a GET request to the root path is answered with status 200, a
    success status, and the body [Hello World!], whatever its query
    parameters and headers are; the view returns the same text on every
    request. *)
Theorem hello_world_constant (req : Greeter.request) :
  Greeter.req_method req = Greeter.GET ->
  Greeter.req_path req = str "/" ->
  Greeter.dispatch req
  = Some {| Greeter.status := 200; Greeter.body := str "Hello World!" |}
  /\ 200 <= 200 < 300
  /\ forall other, Greeter.hello_world other = Greeter.hello_world req.
Proof.
  intros Hm Hp. unfold Greeter.dispatch. rewrite Hm, Hp.
  repeat split; lia.
Qed.

(** ** The theorems at concrete inputs *)

Lemma sample_go_package_line : has_package_line ascii_isspace ascii_isalnum sample_go.
Proof.
  exists (str "package main"). split; [now left|].
  exists [space], (str "main"), []. split; [reflexivity|].
  split; (split; [discriminate|repeat constructor]).
Defined.

Lemma empty_fs_readable : all_readable empty_fs.
Proof. intros p e _. discriminate. Defined.

Lemma single_file_readable path content : all_readable (single_file path content).
Proof.
  intros p e _. unfold single_file. destruct (text_eqb p path); discriminate.
Defined.

Lemma closing_blocks_constant_witness :
  final_blocks (fst (main ascii_isspace ascii_isalnum empty_fs)) = closing_blocks
  /\ final_blocks
       (fst (main ascii_isspace ascii_isalnum
               (single_file snapshot_go (str "func f() {"))))
     = closing_blocks
  /\ final_blocks (fst (main ascii_isspace ascii_isalnum empty_fs))
     = final_blocks
         (fst (main ascii_isspace ascii_isalnum
                 (single_file snapshot_go (str "func f() {")))).
Proof.
  apply (closing_blocks_constant ascii_isspace ascii_isalnum).
  - apply empty_fs_readable.
  - apply single_file_readable.
Defined.

Lemma check_go_syntax_clean_witness :
  single_file snapshot_go sample_go snapshot_go = Present (Ok sample_go)
  /\ count lbrace sample_go = count rbrace sample_go
  /\ count lparen sample_go = count rparen sample_go
  /\ check_go_syntax ascii_isspace ascii_isalnum
       (single_file snapshot_go sample_go) snapshot_go []
     = ([], Ok []).
Proof.
  split; [reflexivity|]. split; [reflexivity|]. split; [reflexivity|].
  apply (@check_go_syntax_clean ascii_isspace ascii_isalnum
           (single_file snapshot_go sample_go) snapshot_go sample_go []).
  - reflexivity.
  - reflexivity.
  - reflexivity.
  - apply sample_go_package_line.
Defined.

Lemma check_go_syntax_brace_counts_witness :
  count lbrace (str "func f() {") <> count rbrace (str "func f() {")
  /\ exists issues o c,
       check_go_syntax ascii_isspace ascii_isalnum
         (single_file snapshot_go (str "func f() {")) snapshot_go []
       = ([], Ok issues)
       /\ filter is_brace_issue issues
          = [str "Unmatched braces: " ++ o ++ str " open, " ++ c ++ str " close"]
       /\ decimal_of 1 o
       /\ decimal_of 0 c.
Proof.
  split; [discriminate|].
  apply (@check_go_syntax_brace_counts ascii_isspace ascii_isalnum
           (single_file snapshot_go (str "func f() {")) snapshot_go
           (str "func f() {") []).
  - reflexivity.
  - discriminate.
Defined.

Lemma check_go_syntax_open_brace_witness :
  check_go_syntax ascii_isspace ascii_isalnum
    (single_file snapshot_go (str "func f() {")) snapshot_go []
  = ([], Ok [str "Unmatched braces: 1 open, 0 close";
             str "Missing package declaration"]).
Proof.
  apply (@check_go_syntax_open_brace ascii_isspace ascii_isalnum
           (single_file snapshot_go (str "func f() {")) snapshot_go []).
  reflexivity.
Defined.

Lemma check_go_syntax_three_checks_witness :
  check_go_syntax ascii_isspace ascii_isalnum
    (single_file snapshot_go (str "){{")) snapshot_go []
  = ([], Ok [str "Unmatched braces: 2 open, 0 close";
             str "Unmatched parentheses: 0 open, 1 close";
             str "Missing package declaration"]).
Proof.
  apply (@check_go_syntax_three_checks ascii_isspace ascii_isalnum
           (single_file snapshot_go (str "){{")) snapshot_go (str "){{") []).
  reflexivity.
Defined.

Lemma run_exits_zero_witness :
  exists out,
    validate_snapshot_command ascii_isspace ascii_isalnum empty_fs [] = (out, Ok tt)
    /\ main ascii_isspace ascii_isalnum empty_fs = (out, 0)
    /\ forall p, In p files_to_check -> empty_fs p = Absent ->
         occurrences (missing_line p) out = 1.
Proof.
  apply (@run_exits_zero ascii_isspace ascii_isalnum empty_fs).
  apply empty_fs_readable.
Defined.

Lemma unreadable_go_file_aborts_witness :
  main ascii_isspace ascii_isalnum unreadable_upload
  = (banner ++ [missing_line snapshot_go; exists_line upload_go], 1).
Proof.
  apply (@unreadable_go_file_aborts ascii_isspace ascii_isalnum unreadable_upload
           [snapshot_go] upload_go
           [str "/workspace/cmd/snapshot/upload_test.go";
            str "/workspace/cmd/snapshot/README.md"] OSError).
  - reflexivity.
  - reflexivity.
  - reflexivity.
  - intros q [<-|[]] e _. discriminate.
Defined.

Lemma main_go_absent_silent_witness :
  empty_fs main_go_path = Absent
  /\ ~ In import_missing (fst (main ascii_isspace ascii_isalnum empty_fs))
  /\ ~ In (missing_line main_go_path)
         (fst (main ascii_isspace ascii_isalnum empty_fs)).
Proof.
  split; [reflexivity|].
  destruct (@main_go_absent_silent ascii_isspace ascii_isalnum empty_fs eq_refl)
    as [Hsilent _].
  split; apply Hsilent; simpl; tauto.
Defined.

Lemma hello_world_constant_witness :
  Greeter.dispatch root_get
  = Some {| Greeter.status := 200; Greeter.body := str "Hello World!" |}.
Proof.
  apply (hello_world_constant root_get); reflexivity.
Defined.

(** ** More on check_go_syntax: the parenthesis check, the package pattern,
    what the counting checks cannot see *)

Section MoreSyntax.

Variable uni_isspace : char -> bool.
Variable uni_isalnum : char -> bool.

Local Abbreviation matches := (match_at uni_isspace uni_isalnum).
Local Abbreviation searches := (search_from uni_isspace uni_isalnum).
Local Abbreviation run := (run_of uni_isspace uni_isalnum).
Local Abbreviation declared := (package_declared uni_isspace uni_isalnum).
Local Abbreviation issues_of := (check_go_syntax_content uni_isspace uni_isalnum).
Local Abbreviation found := (re_search uni_isspace uni_isalnum package_re).

Lemma match_chr_inv c pat prev s :
  matches (Chr c :: pat) prev s = true ->
  exists s', s = c :: s' /\ matches pat (Some c) s' = true.
Proof.
  destruct s as [|x s]; simpl; [discriminate|].
  intros H. apply andb_true_iff in H. destruct H as [Hx H].
  apply N.eqb_eq in Hx. subst x. now exists s.
Qed.

Lemma match_plus_inv k pat s :
  forall prev,
  matches (Plus k :: pat) prev s = true ->
  exists w s' prev', run k w /\ s = w ++ s' /\ matches pat prev' s' = true.
Proof.
  induction s as [|x s IH]; intros prev H.
  - rewrite match_plus_nil in H. discriminate H.
  - rewrite match_plus_cons in H. apply andb_true_iff in H.
    destruct H as [Hx H]. apply orb_true_iff in H. destruct H as [H|H].
    + exists [x], s, (Some x). repeat split; [discriminate|now constructor|exact H].
    + destruct (IH _ H) as (w & s' & prev' & [_ Hw] & -> & Hm).
      exists (x :: w), s', prev'.
      repeat split; [discriminate|now constructor|exact Hm].
Qed.

Lemma match_literal_inv lit pat :
  forall prev s,
  matches (map Chr lit ++ pat) prev s = true ->
  exists s' prev', s = lit ++ s' /\ matches pat prev' s' = true.
Proof.
  induction lit as [|c lit IH]; intros prev s H.
  - now exists s, prev.
  - cbn [map app] in H. apply match_chr_inv in H. destruct H as (s1 & -> & H).
    destruct (IH _ _ H) as (s' & prev' & -> & Hm). now exists s', prev'.
Qed.

Lemma match_package_inv prev s :
  matches package_re prev s = true ->
  at_line_start prev = true
  /\ exists ws w rest,
       s = str "package" ++ ws ++ w ++ rest /\ run Space ws /\ run Word w.
Proof.
  unfold package_re.
  change (matches (Bol :: ?p) prev s) with (at_line_start prev && matches p prev s).
  intros H. apply andb_true_iff in H. destruct H as [Hbol H]. split; [exact Hbol|].
  apply match_literal_inv in H. destruct H as (s1 & p1 & -> & H).
  apply match_plus_inv in H. destruct H as (ws & s2 & p2 & Hws & -> & H).
  apply match_plus_inv in H. destruct H as (w & rest & p3 & Hw & -> & _).
  now exists ws, w, rest.
Qed.

Lemma search_from_inv pat s :
  forall prev,
  searches pat prev s = true ->
  exists pre s', s = pre ++ s' /\ matches pat (char_before prev pre) s' = true.
Proof.
  induction s as [|x s IH]; intros prev H; simpl in H;
    apply orb_true_iff in H; destruct H as [H|H].
  - now exists [], [].
  - discriminate H.
  - now exists [], (x :: s).
  - destruct (IH _ H) as (pre & s' & -> & Hm). now exists (x :: pre), s'.
Qed.

Lemma line_start_inv pre :
  at_line_start (char_before None pre) = true ->
  pre = [] \/ exists pre', pre = pre' ++ [newline].
Proof.
  induction pre as [|x pre _] using rev_ind; [now left|].
  unfold char_before. rewrite fold_left_app. cbn [fold_left at_line_start].
  intros H. apply N.eqb_eq in H. subst x. right. now exists pre.
Qed.

(** The search finds the pattern exactly in the texts that hold a
    declaration. *)
Lemma re_search_package content : found content = true <-> declared content.
Proof.
  split.
  - unfold re_search. intros H. apply search_from_inv in H.
    destruct H as (pre & s' & -> & H). apply match_package_inv in H.
    destruct H as (Hbol & ws & w & rest & -> & Hws & Hw).
    exists pre, ws, w, rest. split; [reflexivity|].
    split; [now apply line_start_inv|]. now split.
  - intros (pre & ws & w & rest & -> & Hpre & Hws & Hw).
    unfold re_search. apply search_from_app. apply match_package_line; auto.
    destruct Hpre as [->|[pre' ->]]; [reflexivity|].
    now rewrite char_before_newline.
Qed.

Lemma match_at_app pat b :
  forall prev s, matches pat prev s = true -> matches pat prev (s ++ b) = true.
Proof.
  induction pat as [|a pat IH]; intros prev s H; [reflexivity|].
  destruct a as [|c|k].
  - change (matches (Bol :: pat) prev ?t)
      with (at_line_start prev && matches pat prev t) in *.
    apply andb_true_iff in H. destruct H as [-> H]. now apply IH.
  - apply match_chr_inv in H. destruct H as (s' & -> & H).
    simpl. rewrite N.eqb_refl. now apply IH.
  - revert prev H. induction s as [|x s IHs]; intros prev H.
    + rewrite match_plus_nil in H. discriminate H.
    + rewrite <- app_comm_cons. rewrite match_plus_cons in *.
      apply andb_true_iff in H. destruct H as [-> H]. cbn [andb].
      apply orb_true_iff in H. apply orb_true_iff. destruct H as [H|H].
      * left. now apply IH.
      * right. now apply IHs.
Qed.

Lemma search_from_suffix pat b s :
  forall prev, searches pat prev s = true -> searches pat prev (s ++ b) = true.
Proof.
  induction s as [|x s IH]; intros prev H; simpl in H;
    apply orb_true_iff in H; destruct H as [H|H].
  - apply search_from_here. now apply (match_at_app pat b) in H.
  - discriminate H.
  - apply search_from_here. now apply (match_at_app pat b) in H.
  - simpl. rewrite (IH _ H). apply orb_true_r.
Qed.

Lemma count_app c a b : count c (a ++ b) = count c a + count c b.
Proof. induction a as [|x a IH]; simpl; [reflexivity|rewrite IH; lia]. Qed.

Lemma count_permutation c a b : Permutation a b -> count c a = count c b.
Proof. induction 1; simpl; lia. Qed.

Lemma content_clean_iff content :
  issues_of content = []
  <-> count lbrace content = count rbrace content
      /\ count lparen content = count rparen content
      /\ found content = true.
Proof.
  rewrite content_checks. unfold brace_check, paren_check, package_check.
  destruct (Nat.eqb_spec (count lbrace content) (count rbrace content));
    destruct (Nat.eqb_spec (count lparen content) (count rparen content));
    destruct (re_search uni_isspace uni_isalnum package_re content);
    cbn [app]; split; try discriminate; try tauto;
    intros (? & ? & ?); congruence.
Qed.

Lemma package_issue_reported content :
  In package_issue (issues_of content) <-> found content = false.
Proof.
  rewrite content_checks. unfold brace_check, paren_check, package_check.
  destruct (Nat.eqb (count lbrace content) (count rbrace content));
    destruct (Nat.eqb (count lparen content) (count rparen content));
    destruct (re_search uni_isspace uni_isalnum package_re content);
    cbn [app In]; split; try tauto; try discriminate;
    intros H; repeat (destruct H as [H|H]; try discriminate H); destruct H.
Qed.

End MoreSyntax.

Lemma paren_issue_recognised o c : is_paren_issue (paren_issue o c) = true.
Proof. apply startswith_app. Qed.

Lemma brace_issue_not_paren o c : is_paren_issue (brace_issue o c) = false.
Proof. reflexivity. Qed.

Lemma package_issue_not_paren : is_paren_issue package_issue = false.
Proof. reflexivity. Qed.

Section SyntaxProperties.

Variable uni_isspace : char -> bool.
Variable uni_isalnum : char -> bool.

Local Abbreviation check_syntax := (check_go_syntax uni_isspace uni_isalnum).
Local Abbreviation issues_of := (check_go_syntax_content uni_isspace uni_isalnum).
Local Abbreviation declared := (package_declared uni_isspace uni_isalnum).
Local Abbreviation found := (re_search uni_isspace uni_isalnum package_re).

(** X1: when the parentheses do not balance, exactly one of the returned
    issues is a parenthesis mismatch: it reads [Unmatched parentheses: ], a
    numeral, [ open, ], a numeral, [ close], where the first numeral is the
    decimal numeral of the number of opening parentheses of the content and
    the second that of the number of closing parentheses. *)
Theorem check_go_syntax_paren_counts fs path content out :
  fs path = Present (Ok content) ->
  count lparen content <> count rparen content ->
  exists issues o c,
    check_syntax fs path out = (out, Ok issues)
    /\ filter is_paren_issue issues
       = [str "Unmatched parentheses: " ++ o ++ str " open, " ++ c
            ++ str " close"]
    /\ decimal_of (count lparen content) o
    /\ decimal_of (count rparen content) c.
Proof.
  intros H Hne.
  exists (issues_of content),
         (format_int (count lparen content)),
         (format_int (count rparen content)).
  split; [now apply check_go_syntax_reads|].
  split; [|split; apply format_int_decimal].
  rewrite content_checks.
  assert (Hp : paren_check content
               = [paren_issue (count lparen content) (count rparen content)]).
  { unfold paren_check. apply Nat.eqb_neq in Hne. now rewrite Hne. }
  rewrite Hp. unfold brace_check, package_check.
  destruct (Nat.eqb (count lbrace content) (count rbrace content));
    destruct (re_search uni_isspace uni_isalnum package_re content);
    cbn [app filter];
    rewrite ?brace_issue_not_paren, ?package_issue_not_paren,
      paren_issue_recognised;
    reflexivity.
Qed.

(** X2: the issue [Missing package declaration] is returned exactly for the
    contents that hold no declaration: no [package] at the start of the text
    or right after a newline that is followed by whitespace and a word
    character.  The whitespace may be of any kind, newlines included. *)
Theorem package_issue_iff_undeclared fs path content out :
  fs path = Present (Ok content) ->
  exists issues,
    check_syntax fs path out = (out, Ok issues)
    /\ (In package_issue issues <-> ~ declared content).
Proof.
  intros H. exists (issues_of content).
  split; [now apply check_go_syntax_reads|].
  rewrite package_issue_reported, <- re_search_package.
  destruct (found content); split; congruence.
Qed.

(** X3: [check_go_syntax] returns no issue at all only for a content whose
    braces balance, whose parentheses balance and which holds a
    declaration, and for every such content. *)
Theorem check_go_syntax_empty_iff fs path content out :
  fs path = Present (Ok content) ->
  check_syntax fs path out = (out, Ok [])
  <-> count lbrace content = count rbrace content
      /\ count lparen content = count rparen content
      /\ declared content.
Proof.
  intros H.
  rewrite (@check_go_syntax_reads uni_isspace uni_isalnum fs path content out H).
  rewrite <- re_search_package, <- content_clean_iff.
  split; [intros [= ->]; reflexivity|intros ->; reflexivity].
Qed.

(** X4: the brace and parenthesis checks only count: two contents with the
    same characters in any order, which fare alike on the package check, get
    the same issues.  Misplaced braces are never reported. *)
Theorem counting_checks_ignore_order c1 c2 :
  Permutation c1 c2 ->
  re_search uni_isspace uni_isalnum package_re c1
  = re_search uni_isspace uni_isalnum package_re c2 ->
  check_go_syntax_content uni_isspace uni_isalnum c1
  = check_go_syntax_content uni_isspace uni_isalnum c2.
Proof.
  intros Hperm Hpkg. rewrite !content_checks.
  unfold brace_check, paren_check, package_check.
  rewrite !(count_permutation _ Hperm), Hpkg. reflexivity.
Qed.

(** X5: text appended to a content without issues brings no issue as long
    as its own braces and parentheses balance: the declaration found in the
    first part is still found. *)
Theorem clean_content_extends a b :
  check_go_syntax_content uni_isspace uni_isalnum a = [] ->
  count lbrace b = count rbrace b ->
  count lparen b = count rparen b ->
  check_go_syntax_content uni_isspace uni_isalnum (a ++ b) = [].
Proof.
  intros Ha Hb Hp. apply content_clean_iff in Ha. destruct Ha as (Ha1 & Ha2 & Ha3).
  apply content_clean_iff. rewrite !count_app. repeat split; try lia.
  unfold re_search in *. now apply search_from_suffix.
Qed.

End SyntaxProperties.

(** ** Substrings *)

Lemma startswith_iff (p s : text) :
  startswith p s = true <-> exists b, s = p ++ b.
Proof.
  split.
  - revert s. induction p as [|a p IH]; intros s H; [now exists s|].
    destruct s as [|x s]; [discriminate H|]. simpl in H.
    apply andb_true_iff in H. destruct H as [Hax H]. apply N.eqb_eq in Hax.
    subst x. destruct (IH _ H) as (b & ->). now exists b.
  - intros (b & ->). apply startswith_app.
Qed.

Lemma contains_unfold (p s : text) :
  contains p s
  = startswith p s
    || match s with
       | [] => false
       | _ :: s' => contains p s'
       end.
Proof. destruct s; reflexivity. Qed.

Lemma contains_here (p s : text) : startswith p s = true -> contains p s = true.
Proof. intros H. destruct s; simpl; rewrite H; reflexivity. Qed.

Lemma contains_iff (p s : text) : contains p s = true <-> occurs_in p s.
Proof.
  unfold occurs_in. split.
  - induction s as [|x s IH]; rewrite contains_unfold; intros H;
      apply orb_true_iff in H; destruct H as [H|H].
    + apply startswith_iff in H. destruct H as (b & H).
      exists []. exists b. exact H.
    + discriminate H.
    + apply startswith_iff in H. destruct H as (b & H).
      exists []. exists b. exact H.
    + destruct (IH H) as (a & b & ->). now exists (x :: a), b.
  - intros (a & b & ->). induction a as [|x a IH].
    + cbn [app]. apply contains_here, startswith_app.
    + rewrite <- app_comm_cons, contains_unfold, IH. apply orb_true_r.
Qed.

(** ** More on the run: the ways it can end *)

Section Endings.

Variable uni_isspace : char -> bool.
Variable uni_isalnum : char -> bool.
Variable fs : filesystem.

Local Abbreviation check_one_file := (check_one uni_isspace uni_isalnum fs).
Local Abbreviation report := (report_one uni_isspace uni_isalnum fs).
Local Abbreviation validate := (validate_snapshot_command uni_isspace uni_isalnum fs).
Local Abbreviation run_main := (main uni_isspace uni_isalnum fs).

Lemma check_main_raise e out :
  fs main_go_path = Present (Raise e) -> check_main_go fs out = (out, Raise e).
Proof.
  intros H. unfold check_main_go, check_file_exists, os_path_exists, open_read.
  cbv beta iota delta [bind ret lift]. now rewrite H.
Qed.

Lemma validate_reads_ok out :
  reads_succeed fs ->
  validate out
  = (out ++ banner ++ flat_map report files_to_check ++ report_main fs
         ++ closing_blocks, Ok tt).
Proof.
  intros [Hgo Hmain]. unfold validate_snapshot_command.
  cbv beta iota delta [bind print].
  rewrite loop_ok by exact Hgo. rewrite check_main_ok by exact Hmain.
  repeat rewrite <- app_assoc. reflexivity.
Qed.

Lemma validate_main_raise e out :
  (forall p, In p files_to_check -> go_readable fs p) ->
  fs main_go_path = Present (Raise e) ->
  validate out = (out ++ banner ++ flat_map report files_to_check, Raise e).
Proof.
  intros Hgo Hmain. unfold validate_snapshot_command.
  cbv beta iota delta [bind print].
  rewrite loop_ok by exact Hgo. rewrite check_main_raise with (e := e) by exact Hmain.
  repeat rewrite <- app_assoc. reflexivity.
Qed.

(** Reading the Go files of a list in turn: all reads succeed, or there is a
    first one that fails. *)
Lemma first_unreadable ps :
  (forall p, In p ps -> go_readable fs p)
  \/ exists before p after e,
       ps = before ++ p :: after
       /\ (forall q, In q before -> go_readable fs q)
       /\ endswith p (str ".go") = true
       /\ fs p = Present (Raise e).
Proof.
  induction ps as [|p ps IH]; [left; intros p []|].
  assert (Hp : go_readable fs p
               \/ exists e, endswith p (str ".go") = true /\ fs p = Present (Raise e)).
  { unfold go_readable. destruct (endswith p (str ".go")).
    - destruct (fs p) as [|[c|e]]; [left|left|right]; try (intros; discriminate).
      now exists e.
    - left. intros e H. discriminate H. }
  destruct Hp as [Hp|(e & Hgo & He)].
  - destruct IH as [IH|(before & q & after & e & -> & Hb & Hgo & He)].
    + left. intros q [<-|Hq]; auto.
    + right. exists (p :: before), q, after, e. repeat split; auto.
      intros r [<-|Hr]; auto.
  - right. exists [], p, ps, e. repeat split; auto. intros q [].
Qed.

(** The three ways a run ends, with all it has printed. *)
Lemma run_cases :
  (reads_succeed fs
   /\ run_main = (banner ++ flat_map report files_to_check ++ report_main fs
                    ++ closing_blocks, 0))
  \/ (exists before p after e,
        files_to_check = before ++ p :: after
        /\ fs p = Present (Raise e)
        /\ run_main = (banner ++ flat_map report before ++ [exists_line p], 1))
  \/ (exists e,
        fs main_go_path = Present (Raise e)
        /\ run_main = (banner ++ flat_map report files_to_check, 1)).
Proof.
  unfold main.
  destruct (first_unreadable files_to_check)
    as [Hgo|(before & p & after & e & Hsplit & Hb & Hgo & He)].
  - destruct (fs main_go_path) as [|[c|e]] eqn:Hmain.
    + left. assert (Hr : reads_succeed fs) by (split; [exact Hgo|congruence]).
      split; [exact Hr|]. now rewrite validate_reads_ok.
    + left. assert (Hr : reads_succeed fs) by (split; [exact Hgo|congruence]).
      split; [exact Hr|]. now rewrite validate_reads_ok.
    + right; right. exists e. split; [reflexivity|].
      now rewrite (validate_main_raise [] Hgo Hmain).
  - right; left. exists before, p, after, e. split; [exact Hsplit|].
    split; [exact He|].
    now rewrite (@validate_raise uni_isspace uni_isalnum fs before p after e []
                   Hsplit Hb Hgo He).
Qed.

Lemma report_is_loop_line ps l :
  In l (flat_map report ps) -> exists p, In p ps /\ line_about p l.
Proof.
  intros H. apply in_flat_map in H. destruct H as (p & Hp & Hl).
  exists p. split; [exact Hp|]. now apply (@report_lines uni_isspace uni_isalnum fs).
Qed.

Lemma plain_not_about p l : plain_line l = true -> ~ line_about p l.
Proof.
  intros Hplain [->|[->|H]]; try discriminate Hplain.
  destruct l as [|c l]; [discriminate H|]. injection H as ->. discriminate Hplain.
Qed.

End Endings.

Lemma closing_blocks_plain : forallb plain_line closing_blocks = true.
Proof. vm_compute. reflexivity. Qed.

Lemma closing_not_in_banner l : In l closing_blocks -> ~ In l banner.
Proof.
  intros Hl Hb. revert l Hb Hl.
  assert (H : forallb (fun b => forallb (fun x => negb (text_eqb x b)) closing_blocks)
                banner = true) by (vm_compute; reflexivity).
  intros l Hb Hl. rewrite forallb_forall in H. specialize (H l Hb).
  now apply (@not_among _ _ H l).
Qed.

Lemma for_each_ext {A} (f g : A -> IO unit) xs :
  (forall x out, In x xs -> f x out = g x out) ->
  forall out, for_each xs f out = for_each xs g out.
Proof.
  induction xs as [|x xs IH]; intros H out; [reflexivity|].
  simpl. unfold bind. rewrite (H x out) by now left.
  destruct (g x out) as [out' [[]|e]]; [|reflexivity].
  apply IH. intros y o Hy. apply H. now right.
Qed.

Lemma main_go_is_go : endswith main_go_path (str ".go") = true.
Proof. reflexivity. Qed.

(** ** Properties of the run *)

Section RunProperties.

Variable uni_isspace : char -> bool.
Variable uni_isalnum : char -> bool.

Local Abbreviation report := (report_one uni_isspace uni_isalnum).
Local Abbreviation validate := (validate_snapshot_command uni_isspace uni_isalnum).
Local Abbreviation run_main := (main uni_isspace uni_isalnum).
Local Abbreviation issues_of := (check_go_syntax_content uni_isspace uni_isalnum).

(** X6: the exit status is 0 exactly when no read fails, that is when every
    Go file of the list that exists, and [main.go] if it exists, can be
    read.  What cannot be read of [README.md] plays no part. *)
Theorem exit_zero_iff_reads_succeed fs :
  snd (run_main fs) = 0 <-> reads_succeed fs.
Proof.
  split.
  - destruct (run_cases uni_isspace uni_isalnum fs)
      as [[Hr _]|[(before & p & after & e & _ & _ & Hm)|(e & _ & Hm)]];
      [intros _; exact Hr|rewrite Hm; discriminate|rewrite Hm; discriminate].
  - intros Hr. unfold main. now rewrite validate_reads_ok.
Qed.

(** X7: when the Go files of the list raise nothing and [main.go] exists but
    cannot be read, the run prints the banner and the reports of the loop,
    then ends on the error with exit status 1: no line of the integration
    check is printed. *)
Theorem main_go_unreadable_aborts fs e :
  (forall p, In p files_to_check -> go_readable fs p) ->
  fs main_go_path = Present (Raise e) ->
  validate fs [] = (banner ++ flat_map (report fs) files_to_check, Raise e)
  /\ run_main fs = (banner ++ flat_map (report fs) files_to_check, 1)
  /\ forall l, In l about_main -> ~ In l (fst (run_main fs)).
Proof.
  intros Hgo Hmain.
  pose proof (@validate_main_raise uni_isspace uni_isalnum fs e [] Hgo Hmain) as Hrun.
  cbn [app] in Hrun.
  assert (Hm : run_main fs = (banner ++ flat_map (report fs) files_to_check, 1)).
  { unfold main. now rewrite Hrun. }
  split; [exact Hrun|]. split; [exact Hm|].
  intros l Hl. rewrite Hm. cbn [fst].
  rewrite <- (app_nil_r (flat_map (report fs) files_to_check)).
  apply clear_not_printed; [| |now left].
  - pose proof about_main_clear as H. rewrite forallb_forall in H. now apply H.
  - intros x Hx. now apply report_is_loop_line in Hx.
Qed.

(** X8: a run depends on the filesystem only through which of the five
    paths exist and what reading the Go files among them gives: two
    filesystems that agree on that give the same output and the same exit
    status.  [README.md] is never read. *)
Theorem run_reads_only_go_files fs1 fs2 :
  (forall p, In p checked_files -> os_path_exists fs1 p = os_path_exists fs2 p) ->
  (forall p, In p checked_files -> endswith p (str ".go") = true -> fs1 p = fs2 p) ->
  run_main fs1 = run_main fs2.
Proof.
  intros Hex Hgo.
  assert (Hone : forall p out, In p files_to_check ->
            check_one uni_isspace uni_isalnum fs1 p out
            = check_one uni_isspace uni_isalnum fs2 p out).
  { intros p out Hp.
    assert (Hc : In p checked_files) by (apply in_or_app; now left).
    unfold check_one, check_file_exists, check_go_syntax, open_read.
    cbv beta iota delta [bind ret lift]. rewrite (Hex p Hc).
    destruct (endswith p (str ".go")) eqn:Hend; [|reflexivity].
    now rewrite (Hgo p Hc Hend). }
  assert (Hmain : forall out, check_main_go fs1 out = check_main_go fs2 out).
  { intros out.
    assert (Hc : In main_go_path checked_files) by (apply in_or_app; right; now left).
    unfold check_main_go, check_file_exists, open_read.
    cbv beta iota delta [bind ret lift].
    now rewrite (Hex _ Hc), (Hgo _ Hc main_go_is_go). }
  unfold main, validate_snapshot_command. cbv beta iota delta [bind print].
  rewrite (for_each_ext _ _ files_to_check
             (fun p out Hp => Hone p out Hp)).
  destruct (for_each files_to_check _ _) as [out' [[]|e]]; [|reflexivity].
  now rewrite Hmain.
Qed.

(** X9: when no read fails and [main.go] holds the text [c], the lines of
    the integration check are two, between the reports of the loop and the
    closing blocks: the first confirms the import exactly when the import
    path occurs in [c], the second confirms the command exactly when
    [snapshot.Snapshot(] occurs in [c]; either warns otherwise. *)
Theorem main_go_lines fs c :
  (forall p, In p files_to_check -> go_readable fs p) ->
  fs main_go_path = Present (Ok c) ->
  exists l1 l2,
    fst (run_main fs)
    = banner ++ flat_map (report fs) files_to_check ++ [l1; l2] ++ closing_blocks
    /\ (l1 = import_added /\ occurs_in import_needle c
        \/ l1 = import_missing /\ ~ occurs_in import_needle c)
    /\ (l2 = command_added /\ occurs_in command_needle c
        \/ l2 = command_missing /\ ~ occurs_in command_needle c).
Proof.
  intros Hgo Hmain.
  assert (Hr : reads_succeed fs) by (split; [exact Hgo|congruence]).
  unfold main. rewrite validate_reads_ok by exact Hr. cbn [app fst].
  unfold report_main. rewrite Hmain.
  pose proof (contains_iff import_needle c) as H1.
  pose proof (contains_iff command_needle c) as H2.
  unfold import_needle, command_needle in H1, H2 |- *.
  eexists. eexists. split; [reflexivity|].
  split.
  - destruct (contains (str "github.com/okteto/okteto/cmd/snapshot") c).
    + left. split; [reflexivity|]. now apply H1.
    + right. split; [reflexivity|]. intros H. apply H1 in H. discriminate H.
  - destruct (contains (str "snapshot.Snapshot(") c).
    + left. split; [reflexivity|]. now apply H2.
    + right. split; [reflexivity|]. intros H. apply H2 in H. discriminate H.
Qed.

(** X10: either the run ends with exit status 0 and its output ends with the
    two closing blocks, or it ends with exit status 1 and no line of the
    closing blocks is printed at all. *)
Theorem closing_blocks_iff_no_abort fs :
  (snd (run_main fs) = 0 /\ exists pre, fst (run_main fs) = pre ++ closing_blocks)
  \/ (snd (run_main fs) = 1
      /\ forall l, In l closing_blocks -> ~ In l (fst (run_main fs))).
Proof.
  assert (Hplain : forall l, In l closing_blocks -> plain_line l = true).
  { pose proof closing_blocks_plain as H. rewrite forallb_forall in H. exact H. }
  assert (Hloop : forall ps l, In l closing_blocks ->
                               ~ In l (flat_map (report fs) ps)).
  { intros ps l Hl Hin. apply report_is_loop_line in Hin.
    destruct Hin as (p & _ & Hp). now apply (@plain_not_about p l (Hplain l Hl)). }
  destruct (run_cases uni_isspace uni_isalnum fs)
    as [[_ Hm]|[(before & p & after & e & _ & _ & Hm)|(e & _ & Hm)]];
    rewrite Hm; cbn [fst snd].
  - left. split; [reflexivity|].
    exists (banner ++ flat_map (report fs) files_to_check ++ report_main fs).
    now rewrite <- !app_assoc.
  - right. split; [reflexivity|]. intros l Hl Hin.
    apply in_app_or in Hin. destruct Hin as [Hin|Hin];
      [now apply (closing_not_in_banner Hl)|].
    apply in_app_or in Hin. destruct Hin as [Hin|[<-|[]]];
      [now apply (Hloop before l)|].
    apply (@plain_not_about p _ (Hplain _ Hl)). right. now left.
  - right. split; [reflexivity|]. intros l Hl Hin.
    apply in_app_or in Hin. destruct Hin as [Hin|Hin];
      [now apply (closing_not_in_banner Hl)|now apply (Hloop files_to_check l)].
Qed.

End RunProperties.

Lemma passed_not_fixed x : In x fixed_lines -> x <> syntax_passed.
Proof. revert x. apply not_among. vm_compute. reflexivity. Qed.

Lemma passed_not_status p : missing_line p <> syntax_passed /\ exists_line p <> syntax_passed.
Proof. split; intros H; apply (f_equal (@hd_error _)) in H; discriminate H. Qed.

Lemma passed_not_issue i : issue_line i <> syntax_passed.
Proof.
  intros H. apply (f_equal (fun l => nth 2 l 0%N)) in H. vm_compute in H.
  discriminate H.
Qed.

Lemma passed_not_header : issues_header <> syntax_passed.
Proof. apply text_eqb_neq. reflexivity. Qed.

Section ReportProperties.

Variable uni_isspace : char -> bool.
Variable uni_isalnum : char -> bool.

Local Abbreviation report := (report_one uni_isspace uni_isalnum).
Local Abbreviation run_main := (main uni_isspace uni_isalnum).
Local Abbreviation issues_of := (check_go_syntax_content uni_isspace uni_isalnum).

(** X11: when no read fails, the line [Basic syntax validation passed] is
    in the output exactly when some Go file of the list exists and its
    content gets no issue. *)
Theorem passed_line_iff_clean fs :
  reads_succeed fs ->
  In syntax_passed (fst (run_main fs))
  <-> exists p c,
        In p files_to_check /\ endswith p (str ".go") = true
        /\ fs p = Present (Ok c) /\ issues_of c = [].
Proof.
  intros Hr. unfold main. rewrite validate_reads_ok by exact Hr. cbn [app fst].
  split.
  - intros Hin.
    assert (Hfixed : forall x, In x fixed_lines -> x = syntax_passed -> False)
      by (intros x Hx; now apply passed_not_fixed).
    apply in_app_or in Hin. destruct Hin as [Hin|Hin].
    { exfalso. apply (Hfixed syntax_passed); [|reflexivity].
      apply in_or_app. now left. }
    apply in_app_or in Hin. destruct Hin as [Hin|Hin].
    2:{ exfalso. apply (Hfixed syntax_passed); [|reflexivity].
        apply in_or_app. right. apply in_app_or in Hin. apply in_or_app.
        destruct Hin as [Hin|Hin]; [left|now right].
        now apply report_main_lines in Hin. }
    apply in_flat_map in Hin. destruct Hin as (p & Hp & Hin).
    unfold report_one in Hin. destruct (fs p) as [|r] eqn:Hfs.
    { destruct Hin as [H|[]]. now destruct (passed_not_status p). }
    destruct Hin as [H|Hin]; [now destruct (passed_not_status p)|].
    destruct (endswith p (str ".go")) eqn:Hend; [|destruct Hin].
    destruct r as [c|e]; [|destruct Hin].
    destruct (issues_of c) as [|i issues] eqn:Hc.
    + now exists p, c.
    + exfalso. destruct Hin as [H|Hin]; [now apply passed_not_header|].
      apply in_map_iff in Hin. destruct Hin as (j & H & _).
      now apply (@passed_not_issue j).
  - intros (p & c & Hp & Hend & Hfs & Hc).
    apply in_or_app. right. apply in_or_app. left.
    apply in_flat_map. exists p. split; [exact Hp|].
    unfold report_one. rewrite Hfs, Hend, Hc. right. now left.
Qed.

(** X12: when no read fails, a Go file of the list whose content gets
    issues has them printed as one block: its existence line, the header
    [Syntax issues found:], then one indented line for each issue, in the
    order [check_go_syntax] returned them. *)
Theorem issues_block_printed fs p c :
  reads_succeed fs ->
  In p files_to_check ->
  endswith p (str ".go") = true ->
  fs p = Present (Ok c) ->
  issues_of c <> [] ->
  exists pre post,
    fst (run_main fs)
    = pre ++ (exists_line p :: issues_header :: map issue_line (issues_of c))
          ++ post.
Proof.
  intros Hr Hp Hend Hfs Hne.
  unfold main. rewrite validate_reads_ok by exact Hr. cbn [app fst].
  destruct (in_split _ _ Hp) as (l1 & l2 & Hsplit).
  assert (Hrep : report fs p
                 = exists_line p :: issues_header :: map issue_line (issues_of c)).
  { unfold report_one. rewrite Hfs, Hend.
    destruct (issues_of c); [congruence|reflexivity]. }
  exists (banner ++ flat_map (report fs) l1),
         (flat_map (report fs) l2 ++ report_main fs ++ closing_blocks).
  rewrite Hsplit, flat_map_app. cbn [flat_map]. rewrite Hrep.
  now rewrite <- !app_assoc.
Qed.

End ReportProperties.

(** ** The further properties at concrete inputs *)

Lemma single_file_reads path content : reads_succeed (single_file path content).
Proof.
  split; [intros p _ e _|intros e]; unfold single_file;
    match goal with |- context [text_eqb ?a ?b] => destruct (text_eqb a b) end;
    discriminate.
Defined.

Lemma check_go_syntax_paren_counts_witness :
  count lparen (str "f(") <> count rparen (str "f(")
  /\ exists issues o c,
       check_go_syntax ascii_isspace ascii_isalnum
         (single_file snapshot_go (str "f(")) snapshot_go []
       = ([], Ok issues)
       /\ filter is_paren_issue issues
          = [str "Unmatched parentheses: " ++ o ++ str " open, " ++ c
               ++ str " close"]
       /\ decimal_of 1 o
       /\ decimal_of 0 c.
Proof.
  split; [discriminate|].
  apply (@check_go_syntax_paren_counts ascii_isspace ascii_isalnum
           (single_file snapshot_go (str "f(")) snapshot_go (str "f(") []).
  - reflexivity.
  - discriminate.
Defined.

Lemma package_issue_iff_undeclared_witness :
  exists issues,
    check_go_syntax ascii_isspace ascii_isalnum
      (single_file snapshot_go sample_go) snapshot_go []
    = ([], Ok issues)
    /\ (In package_issue issues
        <-> ~ package_declared ascii_isspace ascii_isalnum sample_go).
Proof.
  apply (@package_issue_iff_undeclared ascii_isspace ascii_isalnum
           (single_file snapshot_go sample_go) snapshot_go sample_go []).
  reflexivity.
Defined.

Lemma check_go_syntax_empty_iff_witness :
  check_go_syntax ascii_isspace ascii_isalnum
    (single_file snapshot_go sample_go) snapshot_go []
  = ([], Ok [])
  <-> count lbrace sample_go = count rbrace sample_go
      /\ count lparen sample_go = count rparen sample_go
      /\ package_declared ascii_isspace ascii_isalnum sample_go.
Proof.
  apply (@check_go_syntax_empty_iff ascii_isspace ascii_isalnum
           (single_file snapshot_go sample_go) snapshot_go sample_go []).
  reflexivity.
Defined.

Lemma counting_checks_ignore_order_witness :
  Permutation (str "{}") (str "}{")
  /\ check_go_syntax_content ascii_isspace ascii_isalnum (str "{}")
     = check_go_syntax_content ascii_isspace ascii_isalnum (str "}{").
Proof.
  assert (H : Permutation (str "{}") (str "}{")) by apply perm_swap.
  split; [exact H|].
  apply (@counting_checks_ignore_order ascii_isspace ascii_isalnum
           (str "{}") (str "}{") H).
  reflexivity.
Defined.

Lemma clean_content_extends_witness :
  check_go_syntax_content ascii_isspace ascii_isalnum sample_go = []
  /\ check_go_syntax_content ascii_isspace ascii_isalnum (sample_go ++ str "()") = [].
Proof.
  split; [reflexivity|].
  apply (@clean_content_extends ascii_isspace ascii_isalnum sample_go (str "()"));
    reflexivity.
Defined.

Lemma main_go_unreadable_aborts_witness :
  unreadable_main main_go_path = Present (Raise OSError)
  /\ main ascii_isspace ascii_isalnum unreadable_main
     = (banner ++ map missing_line files_to_check, 1).
Proof.
  split; [reflexivity|].
  apply (@main_go_unreadable_aborts ascii_isspace ascii_isalnum unreadable_main
           OSError).
  - intros p Hp e _.
    repeat (destruct Hp as [<-|Hp]; [intros H; vm_compute in H; discriminate H|]).
    destruct Hp.
  - reflexivity.
Defined.

Lemma run_reads_only_go_files_witness :
  main ascii_isspace ascii_isalnum unreadable_readme
  = main ascii_isspace ascii_isalnum (single_file readme_md (str "# snapshot")).
Proof.
  apply (@run_reads_only_go_files ascii_isspace ascii_isalnum).
  - intros p _. unfold os_path_exists, unreadable_readme, single_file.
    destruct (text_eqb p readme_md); reflexivity.
  - intros p Hp Hgo.
    repeat (destruct Hp as [<-|Hp]; [first [discriminate Hgo|reflexivity]|]).
    destruct Hp.
Defined.

Lemma main_go_lines_witness :
  exists l1 l2,
    fst (main ascii_isspace ascii_isalnum (single_file main_go_path half_wired_main))
    = banner
        ++ flat_map (report_one ascii_isspace ascii_isalnum
                       (single_file main_go_path half_wired_main)) files_to_check
        ++ [l1; l2] ++ closing_blocks
    /\ (l1 = import_added /\ occurs_in import_needle half_wired_main
        \/ l1 = import_missing /\ ~ occurs_in import_needle half_wired_main)
    /\ (l2 = command_added /\ occurs_in command_needle half_wired_main
        \/ l2 = command_missing /\ ~ occurs_in command_needle half_wired_main).
Proof.
  apply (@main_go_lines ascii_isspace ascii_isalnum
           (single_file main_go_path half_wired_main) half_wired_main).
  - apply single_file_reads.
  - reflexivity.
Defined.

Lemma passed_line_iff_clean_witness :
  In syntax_passed
    (fst (main ascii_isspace ascii_isalnum (single_file snapshot_go sample_go)))
  <-> exists p c,
        In p files_to_check /\ endswith p (str ".go") = true
        /\ single_file snapshot_go sample_go p = Present (Ok c)
        /\ check_go_syntax_content ascii_isspace ascii_isalnum c = [].
Proof.
  apply (@passed_line_iff_clean ascii_isspace ascii_isalnum
           (single_file snapshot_go sample_go)).
  apply single_file_reads.
Defined.

Lemma issues_block_printed_witness :
  exists pre post,
    fst (main ascii_isspace ascii_isalnum
           (single_file snapshot_go (str "func f() {")))
    = pre ++ (exists_line snapshot_go :: issues_header
                :: map issue_line
                     (check_go_syntax_content ascii_isspace ascii_isalnum
                        (str "func f() {")))
          ++ post.
Proof.
  apply (@issues_block_printed ascii_isspace ascii_isalnum
           (single_file snapshot_go (str "func f() {")) snapshot_go
           (str "func f() {")).
  - apply single_file_reads.
  - now left.
  - reflexivity.
  - reflexivity.
  - discriminate.
Defined.

(** ** check_file_exists on the disk *)

Lemma genericpath_exists_returns d path :
  Disk.genericpath_exists d path
  = Disk.Returns (match Disk.os_stat d path with
                  | Disk.Returns _ => true
                  | Disk.Raises _ => false
                  end).
Proof.
  unfold Disk.genericpath_exists, Disk.try_except.
  destruct (Disk.os_stat d path) as [[]|[| |]]; reflexivity.
Qed.

(** The answer the script gets is the one [genericpath.exists] gives. *)
Lemma view_exists d path :
  Disk.genericpath_exists d path = Disk.Returns (os_path_exists (Disk.view d) path).
Proof.
  rewrite genericpath_exists_returns. unfold os_path_exists, Disk.view.
  destruct (Disk.os_stat d path) as [[]|e] eqn:E; [|reflexivity].
  unfold Disk.os_stat in E. destruct (Disk.has_null path); [discriminate E|].
  destruct (d path); try discriminate E; reflexivity.
Qed.

(** C6, as stated, fails: the path of a symbolic link that leads nowhere is
    on the disk, and [check_file_exists] answers [False] for it. *)
Lemma check_file_exists_misses_dangling_link :
  Disk.on_disk dangling_disk (str "/workspace/cmd/snapshot/snapshot.go") = true
  /\ check_file_exists (Disk.view dangling_disk)
       (str "/workspace/cmd/snapshot/snapshot.go") []
     = ([], Ok false).
Proof. split; reflexivity. Qed.

(** C6, amended: on every disk and for every path, [check_file_exists]
    raises nothing, prints nothing and returns what [genericpath.exists]
    returns: [True] exactly when [os.stat] reaches something at the path,
    hence [False] where no entry is, and [False] as well for a dangling
    link, for an entry under a directory that may not be searched and for
    a path that holds a null character. *)
Theorem check_file_exists_follows_stat d path out :
  exists b,
    check_file_exists (Disk.view d) path out = (out, Ok b)
    /\ Disk.genericpath_exists d path = Disk.Returns b
    /\ (b = true <-> Disk.os_stat d path = Disk.Returns tt)
    /\ (b = true <-> Disk.has_null path = false /\ exists r, d path = Disk.Reachable r)
    /\ (Disk.on_disk d path = false -> b = false).
Proof.
  exists (os_path_exists (Disk.view d) path).
  split; [reflexivity|]. split; [apply view_exists|].
  unfold os_path_exists, Disk.view, Disk.os_stat, Disk.on_disk.
  destruct (Disk.has_null path); destruct (d path) as [| | |r];
    repeat split; intros;
    repeat match goal with
           | H : _ /\ _ |- _ => destruct H
           | H : exists _, _ |- _ => destruct H
           end;
    try discriminate; try congruence; eauto.
Qed.
